(** * Sliding-window rate limiter (task-01.py)

    A shallow embedding of [SlidingWindowRateLimiter] and the properties of
    its three public methods.

    Modelling choices.
    - [self.user_messages : Dict[str, deque]] is a [gmap string (list Z)];
      a deque is the list of its elements, oldest first ([popleft] removes
      the head, [append] adds at the end, [q[0]] is the head).
    - Timestamps and durations are exact numbers (type [Z], clock ticks):
      the rounding of Python floats is not modelled.
    - [time.time()] is an oracle [time : nat -> Z]; the world counts how many
      times the clock has been read, and the [n]-th reading is [time n].
    - Python exceptions ([KeyError] of a dict subscript, [IndexError] of
      [q[0]] on an empty deque) are results of the monad, so that "the call
      returns" is something the theorems prove. *)

From Stdlib Require Import ZArith Lia Sorted.
From stdpp Require Import gmap strings list sorting pretty.

Local Open Scope Z_scope.

(** ** The object and the world around it *)

Record SlidingWindowRateLimiter := Limiter {
  window_size : Z;
  max_requests : Z;
  user_messages : gmap string (list Z)
}.

Record world := World {
  self : SlidingWindowRateLimiter;
  clock_reads : nat
}.

Inductive exn := KeyError | IndexError.

Inductive outcome (A : Type) :=
| Returned (a : A)
| Raised (e : exn).
Arguments Returned {A} a.
Arguments Raised {A} e.

(** [__init__] stores its two arguments and an empty dictionary. *)
Definition __init__ (window_size max_requests : Z)
  : outcome SlidingWindowRateLimiter :=
  Returned (Limiter window_size max_requests ∅).

Definition default_window_size : Z := 10.
Definition default_max_requests : Z := 1.

(** ** State and exception monad *)

Definition M (A : Type) : Type := world -> outcome A * world.

Definition ret {A} (a : A) : M A := fun w => (Returned a, w).

Definition bind {A B} (c : M A) (k : A -> M B) : M B :=
  fun w => match c w with
           | (Returned a, w') => k a w'
           | (Raised e, w') => (Raised e, w')
           end.

Definition raise {A} (e : exn) : M A := fun w => (Raised e, w).

Notation "'let*' x ':=' c 'in' k" := (bind c (fun x => k))
  (at level 10, x name, c at level 100, k at level 200).
Notation "c '>>' k" := (bind c (fun _ => k))
  (at level 100, k at level 200, right associativity).

Definition set_messages (m : gmap string (list Z)) (w : world) : world :=
  World (Limiter (window_size (self w)) (max_requests (self w)) m)
        (clock_reads w).

Section Limiter.

(** The clock: [time n] is what the [n]-th call of [time.time()] returns. *)
Variable time : nat -> Z.

Definition time_time : M Z :=
  fun w => (Returned (time (clock_reads w)),
            World (self w) (S (clock_reads w))).

(** [self.window_size], [self.max_requests] *)
Definition get_window_size : M Z := fun w => (Returned (window_size (self w)), w).
Definition get_max_requests : M Z := fun w => (Returned (max_requests (self w)), w).

(** [user_id in self.user_messages] *)
Definition contains (user_id : string) : M bool :=
  fun w => (Returned (bool_decide (is_Some (user_messages (self w) !! user_id))), w).

(** [self.user_messages[user_id]] *)
Definition getitem (user_id : string) : M (list Z) :=
  fun w => match user_messages (self w) !! user_id with
           | Some q => (Returned q, w)
           | None => (Raised KeyError, w)
           end.

(** [self.user_messages[user_id] = q], also the write-back of a deque
    mutated in place *)
Definition setitem (user_id : string) (q : list Z) : M unit :=
  fun w => (Returned tt, set_messages (<[user_id := q]> (user_messages (self w))) w).

(** [del self.user_messages[user_id]] *)
Definition delitem (user_id : string) : M unit :=
  fun w => match user_messages (self w) !! user_id with
           | Some _ => (Returned tt, set_messages (delete user_id (user_messages (self w))) w)
           | None => (Raised KeyError, w)
           end.

(** [q[0]] *)
Definition first (q : list Z) : M Z :=
  match q with
  | oldest :: _ => ret oldest
  | [] => raise IndexError
  end.

(** The loop of [_cleanup_window]:
    [while q and current_time - q[0] >= window_size: q.popleft()]. *)
Fixpoint popleft_while (window_size current_time : Z) (q : list Z) : list Z :=
  match q with
  | oldest :: rest =>
      if current_time - oldest >=? window_size
      then popleft_while window_size current_time rest
      else q
  | [] => []
  end.

Definition _cleanup_window (user_id : string) (current_time : Z) : M unit :=
  let* present := contains user_id in
  if negb present then ret tt
  else
    let* ws := get_window_size in
    let* q := getitem user_id in
    setitem user_id (popleft_while ws current_time q) >>
    let* q := getitem user_id in
    match q with
    | [] => delitem user_id
    | _ :: _ => ret tt
    end.

Definition can_send_message (user_id : string) : M bool :=
  let* current_time := time_time in
  _cleanup_window user_id current_time >>
  let* present := contains user_id in
  if negb present then ret true
  else
    let* q := getitem user_id in
    let* mr := get_max_requests in
    if Z.of_nat (length q) <? mr then ret true
    else
      let* oldest_message_time := first q in
      let* ws := get_window_size in
      ret (current_time - oldest_message_time >=? ws).

Definition record_message (user_id : string) : M bool :=
  let* ok := can_send_message user_id in
  if negb ok then ret false
  else
    let* current_time := time_time in
    let* present := contains user_id in
    (if negb present then setitem user_id [] else ret tt) >>
    let* q := getitem user_id in
    setitem user_id (q ++ [current_time]) >>
    ret true.

Definition time_until_next_allowed (user_id : string) : M Z :=
  let* current_time := time_time in
  _cleanup_window user_id current_time >>
  let* present := contains user_id in
  if negb present then ret 0
  else
    let* q := getitem user_id in
    let* mr := get_max_requests in
    if Z.of_nat (length q) <? mr then ret 0
    else
      let* oldest_message_time := first q in
      let* ws := get_window_size in
      let time_to_wait := (oldest_message_time + ws) - current_time in
      ret (Z.max 0 time_to_wait).

(** ** Calls from outside and their traces *)

Inductive call :=
| CanSend (user_id : string)
| RecordMessage (user_id : string)
| TimeUntil (user_id : string).

Definition key_of (c : call) : string :=
  match c with
  | CanSend k | RecordMessage k | TimeUntil k => k
  end.

Inductive answer :=
| ABool (b : bool)
| ATime (t : Z)
| AExn (e : exn).

Definition lift_answer {A} (f : A -> answer) (o : outcome A) : answer :=
  match o with
  | Returned a => f a
  | Raised e => AExn e
  end.

Definition do_call (c : call) (w : world) : answer * world :=
  match c with
  | CanSend k =>
      let r := can_send_message k w in (lift_answer ABool (fst r), snd r)
  | RecordMessage k =>
      let r := record_message k w in (lift_answer ABool (fst r), snd r)
  | TimeUntil k =>
      let r := time_until_next_allowed k w in (lift_answer ATime (fst r), snd r)
  end.

(** Answers of a sequence of calls, in order. *)
Fixpoint answers (cs : list call) (w : world) : list answer :=
  match cs with
  | [] => []
  | c :: cs' => fst (do_call c w) :: answers cs' (snd (do_call c w))
  end.

(** The world after a sequence of calls. *)
Fixpoint run (cs : list call) (w : world) : world :=
  match cs with
  | [] => w
  | c :: cs' => run cs' (snd (do_call c w))
  end.

(** The deque of a key, empty when the key is not in the dictionary. *)
Definition deque_of (user_id : string) (w : world) : list Z :=
  default [] (user_messages (self w) !! user_id).

(** What one call adds to the record of [user_id]: the element that a
    successful [record_message user_id] has just appended, which is the last
    one of the key's deque when the call returns. *)
Definition appended_by (user_id : string) (c : call) (w : world) : list Z :=
  match c, fst (do_call c w) with
  | RecordMessage k, ABool true =>
      if bool_decide (k = user_id)
      then option_list (last (deque_of user_id (snd (do_call c w))))
      else []
  | _, _ => []
  end.

(** All timestamps recorded for [user_id] by a sequence of calls. *)
Fixpoint admitted (user_id : string) (cs : list call) (w : world) : list Z :=
  match cs with
  | [] => []
  | c :: cs' => appended_by user_id c w ++ admitted user_id cs' (snd (do_call c w))
  end.

End Limiter.

(** ** Vocabulary of the specification *)

(** [t] lies in the trailing interval of length [ws] that ends at [x]. *)
Definition in_window (ws x t : Z) : bool := (x - ws <? t) && (t <=? x).

Definition count_in_window (ws x : Z) (l : list Z) : Z :=
  Z.of_nat (length (filter (fun t => in_window ws x t = true) l)).

(** An entry is expired at [now] when it is at least [ws] old. *)
Definition expired (ws now t : Z) : Prop := now - t >= ws.

(** The entries of a deque that are still inside the window at [now]. *)
Definition live (ws now : Z) (q : list Z) : list Z :=
  filter (fun t => now - t < ws) q.

(** The dictionary after the eviction of [user_id] at [now]: the expired
    head of its deque is gone, and so is the key when nothing is left. *)
Definition evicted (ws now : Z) (user_id : string) (m : gmap string (list Z))
  : gmap string (list Z) :=
  match m !! user_id with
  | None => m
  | Some q =>
      match popleft_while ws now q with
      | [] => delete user_id m
      | t :: q' => <[user_id := t :: q']> m
      end
  end.

(** A deque as a dictionary value: an empty one is not kept. *)
Definition kept (q : list Z) : option (list Z) :=
  match q with
  | [] => None
  | _ :: _ => Some q
  end.

(** The decision of [can_send_message] on the entry of the key, once the
    eviction at [now] is done. *)
Definition admissible (ws mr now : Z) (entry : option (list Z)) : bool :=
  match entry with
  | None => true
  | Some q =>
      (Z.of_nat (length q) <? mr)
      || match q with
         | oldest :: _ => now - oldest >=? ws
         | [] => false
         end
  end.

(** The answer of [time_until_next_allowed] on the entry of the key, once
    the eviction at [now] is done. *)
Definition wait_time (ws mr now : Z) (entry : option (list Z)) : Z :=
  match entry with
  | None => 0
  | Some q =>
      if Z.of_nat (length q) <? mr then 0
      else match q with
           | oldest :: _ => Z.max 0 ((oldest + ws) - now)
           | [] => 0
           end
  end.

(** The world once a public method has read the clock and cleaned the
    window of [user_id]. *)
Definition after_eviction (time : nat -> Z) (user_id : string) (w : world) : world :=
  World (Limiter (window_size (self w)) (max_requests (self w))
           (evicted (window_size (self w)) (time (clock_reads w)) user_id
              (user_messages (self w))))
        (S (clock_reads w)).

(** The world once [record_message] has appended its own clock reading. *)
Definition after_append (time : nat -> Z) (user_id : string) (w : world) : world :=
  World (Limiter (window_size (self w)) (max_requests (self w))
           (<[user_id := deque_of user_id w ++ [time (clock_reads w)]]>
              (user_messages (self w))))
        (S (clock_reads w)).

(** The clock never goes back. *)
Definition monotone (time : nat -> Z) : Prop :=
  forall i j : nat, (i <= j)%nat -> time i <= time j.

(** The initial world of a limiter with the given policy. *)
Definition fresh (ws mr : Z) : world := World (Limiter ws mr ∅) 0.

(** The function of claim C10, written from its words: evict, then answer
    whether the number of surviving entries is below [max_requests]. *)
Definition can_send_simplified (time : nat -> Z) (user_id : string) : M bool :=
  let* current_time := time_time time in
  _cleanup_window user_id current_time >>
  fun w => (Returned (Z.of_nat (length (deque_of user_id w)) <? max_requests (self w)), w).

(** Claim C5 in the words of the specification: one call of
    [record_message] reads the clock once, and the reading used for the
    check is the timestamp that is appended. *)
Definition single_clock_reading (time : nat -> Z) (user_id : string) (w : world)
  : Prop :=
  clock_reads (snd (record_message time user_id w)) = S (clock_reads w)
  /\ (fst (record_message time user_id w) = Returned true ->
      last (deque_of user_id (snd (record_message time user_id w)))
      = Some (time (clock_reads w))).

(** Claim C7 in the words of the specification: a call on a key whose
    newest timestamp is at least [window_size] old leaves the key out of
    the dictionary. *)
Definition idle_key_removed (time : nat -> Z) (c : call) (w : world) : Prop :=
  forall t,
    last (deque_of (key_of c) w) = Some t ->
    time (clock_reads w) - t >= window_size (self w) ->
    user_messages (self (snd (do_call time c w))) !! key_of c = None.

Definition is_can_send (c : call) : Prop :=
  match c with
  | CanSend _ => True
  | _ => False
  end.

(** No deque in the dictionary is empty. *)
Definition no_empty_deque (w : world) : Prop :=
  forall k, user_messages (self w) !! k <> Some [].

(** What an eviction at [now] leaves of an entry of the dictionary. *)
Definition seen (ws now : Z) (entry : option (list Z)) : option (list Z) :=
  match entry with
  | Some q => kept (popleft_while ws now q)
  | None => None
  end.

(** Two worlds with the same policy and clock whose entries are the same
    once evicted at the next reading of the clock or at any later time. *)
Definition alike (time : nat -> Z) (w1 w2 : world) : Prop :=
  window_size (self w1) = window_size (self w2)
  /\ max_requests (self w1) = max_requests (self w2)
  /\ clock_reads w1 = clock_reads w2
  /\ forall k now,
       time (clock_reads w1) <= now ->
       seen (window_size (self w1)) now (user_messages (self w1) !! k)
       = seen (window_size (self w1)) now (user_messages (self w2) !! k).

(** What the proof of the bound keeps true of a world and of the timestamps
    [past] recorded so far for [user_id]: the deque holds the newest of them,
    the others are expired for every reading to come, and no window holds
    more than [mr] of them. *)
Definition bound_invariant (time : nat -> Z) (ws mr : Z) (user_id : string)
    (w : world) (past : list Z) : Prop :=
  window_size (self w) = ws
  /\ max_requests (self w) = mr
  /\ (exists gone,
        past = gone ++ deque_of user_id w
        /\ Forall (fun e => e + ws <= time (clock_reads w)) gone)
  /\ forall x, count_in_window ws x past <= mr.

(** The deque of [user_id] as the calls keep it: in time order, with no
    timestamp later than the next reading of the clock, and not longer than
    [max_requests]. *)
Definition well_formed (time : nat -> Z) (user_id : string) (w : world) : Prop :=
  StronglySorted Z.le (deque_of user_id w)
  /\ Forall (fun t => t <= time (clock_reads w)) (deque_of user_id w)
  /\ Z.of_nat (length (deque_of user_id w)) <= max_requests (self w).

(** A clock that advances by 10 between two readings. *)
Definition slow_clock (n : nat) : Z := 10 * Z.of_nat n.

(** A clock that advances by 1 between two readings. *)
Definition ticking_clock (n : nat) : Z := Z.of_nat n.

(** A limiter of window 10 and one request, after one recorded message of
    "u1" under the slow clock: the timestamp is 10, the next reading is 20. *)
Definition idle_world : world :=
  run slow_clock [RecordMessage "u1"] (fresh 10 1).

(** The same limiter after one recorded message of "u1" under the ticking
    clock: the timestamp is 1, the next reading is 2. *)
Definition busy_world : world :=
  run ticking_clock [RecordMessage "u1"] (fresh 10 1).

(** A clock that advances by 1 every third reading. *)
Definition third_clock (n : nat) : Z := Z.of_nat n / 3.

(** A clock given by its first readings (and 0 afterwards). *)
Definition clock_of (l : list Z) : nat -> Z := fun n => nth n l 0.

(** ** Vocabulary of the further properties *)

(** A call that appends nothing: a query, or a refused [record_message]. *)
Definition no_append (time : nat -> Z) (c : call) (w : world) : Prop :=
  match c with
  | RecordMessage _ => fst (do_call time c w) = ABool false
  | _ => True
  end.

(** The key has room for one more message: it is not in the dictionary, or
    its deque is shorter than [max_requests]. *)
Definition room (user_id : string) (w : world) : Prop :=
  user_messages (self w) !! user_id = None
  \/ Z.of_nat (length (deque_of user_id w)) < max_requests (self w).

Definition is_record_on (user_id : string) (c : call) : Prop :=
  match c with
  | RecordMessage k => k = user_id
  | _ => False
  end.

(** The keys of the [record_message] calls of a sequence. *)
Definition recorded_keys (cs : list call) : list string :=
  flat_map (fun c => match c with RecordMessage k => [k] | _ => [] end) cs.

(** The answer of a limiter that limits nothing. *)
Definition unlimited (c : call) : answer :=
  match c with
  | TimeUntil _ => ATime 0
  | _ => ABool true
  end.

(** No timestamp of the dictionary is later than the next clock reading. *)
Definition not_ahead (time : nat -> Z) (w : world) : Prop :=
  forall k, Forall (fun t => t <= time (clock_reads w)) (deque_of k w).

(** ** The demonstration [test_rate_limiter]

    [print] is modelled by the lines the function returns, one per message:
    the message, its user, and what follows the second bar, the tick or the
    cross with the waiting time. [time.sleep] changes nothing in the
    limiter: the time it lets pass shows in the later readings of the
    clock. The random length of the pauses is not modelled. *)

Record line := Line {
  line_message : Z;
  line_user : Z;
  line_wait : option Z
}.

(** [str(user_id)] of an [int] *)
Definition str (n : Z) : string := pretty n.

(** [range(start, stop)] *)
Definition range (start stop : Z) : list Z := seqZ start (stop - start).

(** [time.sleep(...)] *)
Definition time_sleep : M unit := ret tt.

(** The body of the two loops. *)
Definition demo_message (time : nat -> Z) (message_id : Z) : M line :=
  let user_id := message_id mod 5 + 1 in
  let* result := record_message time (str user_id) in
  let* wait_time := time_until_next_allowed time (str user_id) in
  let printed :=
    Line message_id user_id (if result then None else Some wait_time) in
  time_sleep >>
  ret printed.

(** [for message_id in ids: body] *)
Fixpoint for_each {A : Type} (body : Z -> M A) (ids : list Z) : M (list A) :=
  match ids with
  | [] => ret []
  | i :: ids' =>
      let* x := body i in
      let* xs := for_each body ids' in
      ret (x :: xs)
  end.

Definition test_rate_limiter (time : nat -> Z) : outcome (list line) :=
  match __init__ 10 1 with
  | Raised e => Raised e
  | Returned limiter =>
      fst ((let* first_series := for_each (demo_message time) (range 1 11) in
            time_sleep >>
            let* second_series := for_each (demo_message time) (range 11 21) in
            ret (first_series ++ second_series))
             (World limiter 0))
  end.

(** ** The scenarios of the specification, run on the model *)

Example default_policy :
  __init__ default_window_size default_max_requests = Returned (Limiter 10 1 ∅).
Proof. reflexivity. Qed.

Example scenario_window10_max1 :
  answers (clock_of [0; 0; 5; 5; 10; 10; 10; 10])
          [RecordMessage "u1"; RecordMessage "u1"; TimeUntil "u1";
           RecordMessage "u1"; RecordMessage "u2"]
          (fresh 10 1)
  = [ABool true; ABool false; ATime 5; ABool true; ABool true].
Proof. vm_compute. reflexivity. Qed.

Example scenario_window10_max3 :
  answers (clock_of [0; 0; 1; 1; 2; 2; 3; 3])
          [RecordMessage "u1"; RecordMessage "u1"; RecordMessage "u1";
           RecordMessage "u1"; TimeUntil "u1"]
          (fresh 10 3)
  = [ABool true; ABool true; ABool true; ABool false; ATime 7].
Proof. vm_compute. reflexivity. Qed.

(** ** Lists of timestamps *)

Lemma filter_keeps_all (P : Z -> Prop) `{!forall t, Decision (P t)} (l : list Z) :
  Forall P l -> filter P l = l.
Proof.
  induction 1 as [|t l Ht _ IH]; [reflexivity|].
  rewrite filter_cons_True by exact Ht. f_equal. exact IH.
Qed.

Lemma filter_drops_all (P : Z -> Prop) `{!forall t, Decision (P t)} (l : list Z) :
  Forall (fun t => ~ P t) l -> filter P l = [].
Proof.
  induction 1 as [|t l Ht _ IH]; [reflexivity|].
  rewrite filter_cons_False by exact Ht. exact IH.
Qed.

(** ** The loop of [_cleanup_window] *)

Section Popleft.

Variables ws now : Z.

Lemma popleft_while_split (q : list Z) :
  exists gone, q = gone ++ popleft_while ws now q
               /\ Forall (expired ws now) gone.
Proof.
  induction q as [|t q IH]; simpl.
  - exists []. split; [reflexivity | constructor].
  - destruct (now - t >=? ws) eqn:E.
    + destruct IH as (gone & Hq & Hg). exists (t :: gone). split.
      * simpl. rewrite <- Hq. reflexivity.
      * constructor; [|exact Hg]. unfold expired. apply Z.geb_le in E. lia.
    + exists []. split; [reflexivity | constructor].
Qed.

Lemma popleft_while_head (q : list Z) (t : Z) (r : list Z) :
  popleft_while ws now q = t :: r -> (now - t >=? ws) = false.
Proof.
  induction q as [|u q IH]; simpl; [discriminate|].
  destruct (now - u >=? ws) eqn:E; [exact IH|].
  intros H. injection H as -> _. exact E.
Qed.


Lemma popleft_while_same_length (q : list Z) :
  (length q <= length (popleft_while ws now q))%nat ->
  popleft_while ws now q = q.
Proof.
  destruct (popleft_while_split q) as (gone & Hq & _). intros H.
  rewrite Hq in H at 1. rewrite length_app in H.
  destruct gone; [symmetry; exact Hq | simpl in H; lia].
Qed.

Lemma popleft_while_sorted (q : list Z) :
  StronglySorted Z.le q -> popleft_while ws now q = live ws now q.
Proof.
  unfold live. induction q as [|t q IH]; intros Hs; [reflexivity|].
  inversion Hs as [|? ? Hq Hall]; subst. simpl.
  destruct (now - t >=? ws) eqn:E.
  - apply Z.geb_le in E. rewrite filter_cons_False by lia. apply IH, Hq.
  - rewrite Z.geb_leb in E. apply Z.leb_gt in E.
    rewrite filter_cons_True by lia. f_equal.
    symmetry. apply filter_keeps_all.
    eapply Forall_impl; [exact Hall|]. simpl. intros u Hu. lia.
Qed.

End Popleft.

Lemma popleft_while_later (ws now now' : Z) (q : list Z) :
  now <= now' ->
  popleft_while ws now' (popleft_while ws now q) = popleft_while ws now' q.
Proof.
  intros Hle. induction q as [|t q IH]; [reflexivity|]. simpl.
  destruct (now - t >=? ws) eqn:E.
  - rewrite IH. apply Z.geb_le in E.
    assert ((now' - t >=? ws) = true) as -> by (apply Z.geb_le; lia).
    reflexivity.
  - reflexivity.
Qed.

(** ** Equations of the methods *)

Lemma evicted_lookup (ws now : Z) (k : string) (m : gmap string (list Z)) :
  evicted ws now k m !! k
  = match m !! k with
    | Some q => kept (popleft_while ws now q)
    | None => None
    end.
Proof.
  unfold evicted. destruct (m !! k) as [q|] eqn:E; [|exact E].
  destruct (popleft_while ws now q); simpl.
  - apply lookup_delete_eq.
  - apply lookup_insert_eq.
Qed.

Lemma evicted_lookup_ne (ws now : Z) (k k' : string) (m : gmap string (list Z)) :
  k <> k' -> evicted ws now k m !! k' = m !! k'.
Proof.
  intros Hne. unfold evicted. destruct (m !! k) as [q|]; [|reflexivity].
  destruct (popleft_while ws now q).
  - apply lookup_delete_ne, Hne.
  - apply lookup_insert_ne, Hne.
Qed.

Lemma kept_not_empty (q : list Z) : kept q <> Some [].
Proof. destruct q; discriminate. Qed.

Lemma evicted_not_empty (ws now : Z) (k : string) (m : gmap string (list Z)) :
  evicted ws now k m !! k <> Some [].
Proof.
  rewrite evicted_lookup. destruct (m !! k); [apply kept_not_empty | discriminate].
Qed.

Lemma cleanup_window_eq (k : string) (t : Z) (w : world) :
  _cleanup_window k t w
  = (Returned tt,
     set_messages (evicted (window_size (self w)) t k (user_messages (self w))) w).
Proof.
  destruct w as [[ws mr m] n].
  unfold _cleanup_window, evicted, bind, contains, getitem, setitem, delitem,
    get_window_size, ret, set_messages. cbn.
  destruct (m !! k) as [q|] eqn:E; cbn.
  - rewrite E. cbn. rewrite lookup_insert_eq.
    destruct (popleft_while ws t q); cbn.
    + rewrite lookup_insert_eq, delete_insert_eq. reflexivity.
    + reflexivity.
  - reflexivity.
Qed.

Ltac unfold_monad :=
  unfold bind, contains, getitem, setitem, delitem, get_window_size,
    get_max_requests, time_time, first, ret, raise, set_messages; cbn.

Lemma can_send_message_eq (time : nat -> Z) (k : string) (w : world) :
  can_send_message time k w
  = (Returned (admissible (window_size (self w)) (max_requests (self w))
                 (time (clock_reads w))
                 (user_messages (self (after_eviction time k w)) !! k)),
     after_eviction time k w).
Proof.
  unfold can_send_message, after_eviction, bind at 1, time_time.
  unfold bind at 1. rewrite cleanup_window_eq.
  destruct w as [[ws mr m] n]. unfold_monad.
  pose proof (evicted_not_empty ws (time n) k m) as Hne.
  destruct (evicted ws (time n) k m !! k) as [q|] eqn:E; cbn; [|reflexivity].
  rewrite ?E; cbn.
  destruct (Z.of_nat (length q) <? mr); cbn; [reflexivity|].
  destruct q; [congruence | reflexivity].
Qed.

Lemma time_until_next_allowed_eq (time : nat -> Z) (k : string) (w : world) :
  time_until_next_allowed time k w
  = (Returned (wait_time (window_size (self w)) (max_requests (self w))
                 (time (clock_reads w))
                 (user_messages (self (after_eviction time k w)) !! k)),
     after_eviction time k w).
Proof.
  unfold time_until_next_allowed, after_eviction, bind at 1, time_time.
  unfold bind at 1. rewrite cleanup_window_eq.
  destruct w as [[ws mr m] n]. unfold_monad.
  pose proof (evicted_not_empty ws (time n) k m) as Hne.
  destruct (evicted ws (time n) k m !! k) as [q|] eqn:E; cbn; [|reflexivity].
  rewrite ?E; cbn.
  destruct (Z.of_nat (length q) <? mr); cbn; [reflexivity|].
  destruct q; [congruence | reflexivity].
Qed.

Lemma record_message_eq (time : nat -> Z) (k : string) (w : world) :
  record_message time k w
  = if admissible (window_size (self w)) (max_requests (self w))
         (time (clock_reads w))
         (user_messages (self (after_eviction time k w)) !! k)
    then (Returned true, after_append time k (after_eviction time k w))
    else (Returned false, after_eviction time k w).
Proof.
  unfold record_message, bind at 1. rewrite can_send_message_eq.
  set (w1 := after_eviction time k w). clearbody w1.
  destruct (admissible _ _ _ _); cbn; [|reflexivity].
  destruct w1 as [[ws mr m] n]. unfold after_append, deque_of. unfold_monad.
  destruct (m !! k) as [q|] eqn:E; cbn.
  - rewrite ?E. reflexivity.
  - rewrite ?lookup_insert_eq. cbn. rewrite ?insert_insert_eq. reflexivity.
Qed.

(** ** The world after the eviction *)

Section AfterEviction.

Variable time : nat -> Z.
Variable k : string.
Variable w : world.

Local Abbreviation ws := (window_size (self w)).
Local Abbreviation now := (time (clock_reads w)).

Lemma after_eviction_entry :
  user_messages (self (after_eviction time k w)) !! k
  = kept (popleft_while ws now (deque_of k w)).
Proof.
  unfold after_eviction, deque_of. cbn. rewrite evicted_lookup.
  destruct (user_messages (self w) !! k); reflexivity.
Qed.

Lemma after_eviction_deque :
  deque_of k (after_eviction time k w) = popleft_while ws now (deque_of k w).
Proof.
  unfold deque_of at 1. rewrite after_eviction_entry.
  destruct (popleft_while ws now (deque_of k w)); reflexivity.
Qed.

Lemma after_eviction_other (k' : string) :
  k <> k' ->
  user_messages (self (after_eviction time k w)) !! k'
  = user_messages (self w) !! k'.
Proof. intros Hne. unfold after_eviction. cbn. apply evicted_lookup_ne, Hne. Qed.

Lemma after_eviction_never_empty :
  user_messages (self (after_eviction time k w)) !! k <> Some [].
Proof. rewrite after_eviction_entry. apply kept_not_empty. Qed.

(** The oldest entry that survives the eviction is younger than the window. *)
Lemma after_eviction_oldest (oldest : Z) (rest : list Z) :
  user_messages (self (after_eviction time k w)) !! k = Some (oldest :: rest) ->
  now - oldest < ws.
Proof.
  rewrite after_eviction_entry. intros H.
  destruct (popleft_while ws now (deque_of k w)) as [|t r] eqn:E; [discriminate|].
  injection H as -> ->. apply popleft_while_head in E.
  rewrite Z.geb_leb in E. apply Z.leb_gt in E. exact E.
Qed.

(** Hence the second test of [can_send_message] never succeeds. *)
Lemma admissible_after_eviction (mr : Z) :
  admissible ws mr now (user_messages (self (after_eviction time k w)) !! k)
  = match user_messages (self (after_eviction time k w)) !! k with
    | None => true
    | Some q => Z.of_nat (length q) <? mr
    end.
Proof.
  pose proof after_eviction_oldest as Hold.
  destruct (user_messages (self (after_eviction time k w)) !! k) as [[|t r]|];
    cbn; try reflexivity.
  - apply orb_false_r.
  - specialize (Hold t r eq_refl).
    assert ((now - t >=? ws) = false) as ->; [|apply orb_false_r].
    rewrite Z.geb_leb. apply Z.leb_gt. exact Hold.
Qed.

End AfterEviction.

(** When nothing is evicted and the key stays, the dictionary is the same. *)
Lemma evicted_id (ws now : Z) (k : string) (m : gmap string (list Z)) (q : list Z) :
  m !! k = Some q -> q <> [] -> popleft_while ws now q = q ->
  evicted ws now k m = m.
Proof.
  intros Hk Hne Hq. unfold evicted. rewrite Hk, Hq.
  destruct q; [congruence|]. apply insert_id, Hk.
Qed.

(** ** Construction *)

(** C2, as the code has it: [__init__] checks nothing. Whatever the two
    arguments are, positive or not, the construction returns a limiter with
    that policy and an empty dictionary, and the limiter can be used: its
    first [can_send_message] returns [True] for every key. *)
Theorem init_never_fails (time : nat -> Z) (ws mr : Z) (k : string) :
  __init__ ws mr = Returned (Limiter ws mr ∅)
  /\ user_messages (Limiter ws mr ∅) = ∅
  /\ fst (can_send_message time k (World (Limiter ws mr ∅) 0)) = Returned true.
Proof.
  split; [reflexivity|]. split; [reflexivity|].
  rewrite can_send_message_eq. cbn. rewrite evicted_lookup.
  rewrite lookup_empty. reflexivity.
Qed.

(** C2, as the claim states it, fails at [window_size = 0] and
    [max_requests = 0]: no error is raised. *)
Lemma init_accepts_zero_policy :
  ~ ((0 <= 0 \/ 0 <= 0) -> exists e, __init__ 0 0 = Raised e).
Proof.
  intros H. destruct H as [e He]; [left; lia|]. discriminate He.
Qed.

(** ** [time_until_next_allowed] *)

(** C6: the call returns; the world it leaves is the one after the eviction
    at its clock reading; the answer is 0 when the key is absent or has
    fewer than [max_requests] entries left, and otherwise
    [(oldest + window_size) - now] floored at 0; it is never negative. *)
Theorem time_until_next_allowed_spec (time : nat -> Z) (k : string) (w : world) :
  let ws := window_size (self w) in
  let mr := max_requests (self w) in
  let now := time (clock_reads w) in
  exists (d : Z) (w' : world),
    time_until_next_allowed time k w = (Returned d, w')
    /\ deque_of k w' = popleft_while ws now (deque_of k w)
    /\ user_messages (self w') !! k <> Some []
    /\ (user_messages (self w') !! k = None -> d = 0)
    /\ (Z.of_nat (length (deque_of k w')) < mr -> d = 0)
    /\ (forall oldest rest,
          deque_of k w' = oldest :: rest ->
          mr <= Z.of_nat (length (oldest :: rest)) ->
          d = Z.max 0 ((oldest + ws) - now))
    /\ 0 <= d.
Proof.
  intros ws mr now. rewrite time_until_next_allowed_eq.
  eexists _, _. split; [reflexivity|].
  split; [apply after_eviction_deque|].
  split; [apply after_eviction_never_empty|].
  pose proof (after_eviction_never_empty time k w) as Hne.
  unfold deque_of.
  destruct (user_messages (self (after_eviction time k w)) !! k) as [q|];
    cbn; fold ws mr now.
  - split; [discriminate|]. split; [|split].
    + intros Hlt. apply Z.ltb_lt in Hlt. rewrite Hlt. reflexivity.
    + intros oldest rest -> Hge.
      assert ((Z.of_nat (length (oldest :: rest)) <? mr) = false) as ->
        by (apply Z.ltb_ge; exact Hge).
      reflexivity.
    + destruct (Z.of_nat (length q) <? mr); [lia|].
      destruct q; [lia | apply Z.le_max_l].
  - split; [reflexivity|]. split; [|split].
    + intros Hlt. reflexivity.
    + intros oldest rest H. discriminate H.
    + lia.
Qed.

(** ** [can_send_message] *)

Lemma sorted_last_bounds (q : list Z) (t : Z) :
  StronglySorted Z.le q -> last q = Some t -> Forall (fun u => u <= t) q.
Proof.
  induction q as [|u q IH]; intros Hs Hl; [constructor|].
  inversion Hs as [|? ? Hq Hall]; subst.
  destruct q as [|v q'].
  - cbn in Hl. injection Hl as ->. constructor; [lia | constructor].
  - change (last (v :: q') = Some t) in Hl.
    specialize (IH Hq Hl). constructor; [|exact IH].
    inversion Hall as [|? ? Huv _]; subst.
    inversion IH as [|? ? Hvt _]; subst. lia.
Qed.

(** A sorted deque whose newest entry is expired is emptied by the loop. *)
Lemma popleft_while_idle (ws now : Z) (q : list Z) (t : Z) :
  StronglySorted Z.le q -> last q = Some t -> now - t >= ws ->
  popleft_while ws now q = [].
Proof.
  intros Hs Hl Ht. rewrite popleft_while_sorted by exact Hs.
  apply filter_drops_all.
  eapply Forall_impl; [apply (sorted_last_bounds q t Hs Hl)|].
  cbn. intros u Hu. lia.
Qed.

(** C3: on a deque in time order, [can_send_message] returns, leaves for
    the key exactly the entries [t] with [now - t < window_size] (every
    entry at least [window_size] old is gone, one exactly that old
    included), and answers [True] iff the key is absent, or has fewer than
    [max_requests] entries left, or its oldest entry left is at least
    [window_size] old. With a window of 10 and one request allowed, a
    [record_message] exactly 10 after the newest recorded entry returns
    [True]. *)
Theorem can_send_message_spec (time : nat -> Z) (k : string) (w : world) :
  StronglySorted Z.le (deque_of k w) ->
  let ws := window_size (self w) in
  let mr := max_requests (self w) in
  let now := time (clock_reads w) in
  exists (b : bool) (w' : world),
    can_send_message time k w = (Returned b, w')
    /\ deque_of k w' = live ws now (deque_of k w)
    /\ (forall t, t ∈ deque_of k w' <-> t ∈ deque_of k w /\ ~ expired ws now t)
    /\ (b = true <->
        user_messages (self w') !! k = None
        \/ Z.of_nat (length (deque_of k w')) < mr
        \/ exists oldest rest,
             deque_of k w' = oldest :: rest /\ now - oldest >= ws)
    /\ (ws = 10 -> mr = 1 ->
        forall t, last (deque_of k w) = Some t -> now = t + 10 ->
                  fst (record_message time k w) = Returned true).
Proof.
  intros Hs ws mr now. rewrite can_send_message_eq.
  eexists _, _. split; [reflexivity|].
  assert (deque_of k (after_eviction time k w) = live ws now (deque_of k w)) as Hlive.
  { rewrite after_eviction_deque. apply popleft_while_sorted, Hs. }
  split; [exact Hlive|]. split; [|split].
  - intros t. rewrite Hlive. unfold live, expired.
    rewrite list_elem_of_filter. split; intros [H1 H2]; split; auto; lia.
  - fold ws mr now.
    pose proof (after_eviction_never_empty time k w) as Hne.
    unfold deque_of at 1 2.
    destruct (user_messages (self (after_eviction time k w)) !! k) as [q|]; cbn.
    + rewrite orb_true_iff, Z.ltb_lt. split.
      * intros [Hlt | Hold]; [right; left; exact Hlt|].
        destruct q as [|t r]; [discriminate|].
        right; right. exists t, r. split; [reflexivity|].
        apply Z.geb_le in Hold. lia.
      * intros [Hnone | [Hlt | (t & r & -> & Hold)]];
          [discriminate | left; exact Hlt |].
        right. apply Z.geb_le. lia.
    + split; [intros _; left; reflexivity | reflexivity].
  - intros Hws Hmr t Hl Hnow. rewrite record_message_eq.
    rewrite after_eviction_entry. fold ws now.
    rewrite (popleft_while_idle ws now _ t Hs Hl) by lia.
    reflexivity.
Qed.

(** C10: for a policy that allows at least one request, [can_send_message]
    is the function that evicts and then answers whether fewer than
    [max_requests] entries are left: same answer, same world. With exactly
    [max_requests] entries left the answer is [False]. *)
Theorem can_send_message_simplified (time : nat -> Z) (k : string) (w : world) :
  1 <= max_requests (self w) ->
  can_send_message time k w = can_send_simplified time k w
  /\ (Z.of_nat (length (deque_of k (snd (can_send_message time k w))))
      = max_requests (self w) ->
      fst (can_send_message time k w) = Returned false).
Proof.
  intros Hmr.
  assert (can_send_message time k w
          = (Returned (Z.of_nat (length (deque_of k (after_eviction time k w)))
                       <? max_requests (self w)),
             after_eviction time k w)) as Heq.
  { rewrite can_send_message_eq, admissible_after_eviction. unfold deque_of.
    destruct (user_messages (self (after_eviction time k w)) !! k); cbn;
      [reflexivity|].
    f_equal. f_equal. symmetry. apply Z.ltb_lt. lia. }
  split.
  - rewrite Heq. unfold can_send_simplified, bind at 1, time_time.
    unfold bind at 1. rewrite cleanup_window_eq. reflexivity.
  - rewrite Heq. cbn. intros ->. rewrite Z.ltb_irrefl. reflexivity.
Qed.

(** ** [record_message] *)

Lemma after_append_deque (time : nat -> Z) (k : string) (w : world) :
  deque_of k (after_append time k w) = deque_of k w ++ [time (clock_reads w)].
Proof. unfold after_append, deque_of. cbn. rewrite lookup_insert_eq. reflexivity. Qed.

Lemma after_append_other (time : nat -> Z) (k k' : string) (w : world) :
  k <> k' ->
  user_messages (self (after_append time k w)) !! k' = user_messages (self w) !! k'.
Proof. intros Hne. unfold after_append. cbn. apply lookup_insert_ne, Hne. Qed.

(** A refusal on a deque that is not longer than [max_requests] has evicted
    nothing. *)
Lemma refused_unchanged (time : nat -> Z) (k : string) (w : world) :
  (forall q, user_messages (self w) !! k = Some q ->
             Z.of_nat (length q) <= max_requests (self w)) ->
  admissible (window_size (self w)) (max_requests (self w)) (time (clock_reads w))
    (user_messages (self (after_eviction time k w)) !! k) = false ->
  self (after_eviction time k w) = self w.
Proof.
  intros Hlen. rewrite admissible_after_eviction, after_eviction_entry.
  destruct w as [[ws mr m] n]. unfold deque_of, after_eviction in *. cbn in *.
  destruct (m !! k) as [q|] eqn:Hk; cbn; [|discriminate].
  specialize (Hlen q eq_refl).
  destruct (popleft_while ws (time n) q) as [|t r] eqn:Hq; cbn; [discriminate|].
  intros Hge. apply Z.ltb_ge in Hge.
  assert (popleft_while ws (time n) q = q) as Hsame.
  { apply popleft_while_same_length. rewrite Hq. cbn in *. lia. }
  f_equal. apply (evicted_id ws (time n) k m q Hk); [|exact Hsame].
  intros ->. rewrite Hq in Hsame. discriminate.
Qed.

(** C4: [record_message] returns; its answer is the one of
    [can_send_message]; when the answer is [True] the dictionary is the one
    [can_send_message] leaves with one timestamp appended to the deque of
    the key (a deque made for a key that is not there); when it is [False]
    the limiter is unchanged. The deque of the key is supposed not to be
    longer than [max_requests], as it is in every world the limiter
    reaches. *)
Theorem record_message_spec (time : nat -> Z) (k : string) (w : world) :
  (forall q, user_messages (self w) !! k = Some q ->
             Z.of_nat (length q) <= max_requests (self w)) ->
  let w1 := snd (can_send_message time k w) in
  exists (b : bool) (w' : world),
    record_message time k w = (Returned b, w')
    /\ fst (can_send_message time k w) = Returned b
    /\ (b = true ->
        user_messages (self w')
        = <[k := deque_of k w1 ++ [time (S (clock_reads w))]]>
            (user_messages (self w1))
        /\ length (deque_of k w') = S (length (deque_of k w1))
        /\ forall k', k <> k' ->
             user_messages (self w') !! k' = user_messages (self w) !! k')
    /\ (b = false -> self w' = self w).
Proof.
  intros Hlen w1. subst w1.
  rewrite record_message_eq, can_send_message_eq. cbn [fst snd].
  destruct (admissible _ _ _ _) eqn:Hadm; eexists _, _;
    (split; [reflexivity|]); (split; [reflexivity|]); split;
    try discriminate.
  - intros _. split; [reflexivity|]. split.
    + rewrite after_append_deque, length_app. cbn. lia.
    + intros k' Hne. rewrite after_append_other by exact Hne.
      apply after_eviction_other, Hne.
  - intros _. apply refused_unchanged; assumption.
Qed.

(** ** One call *)

Lemma do_call_eq (time : nat -> Z) (c : call) (w : world) :
  let ws := window_size (self w) in
  let mr := max_requests (self w) in
  let now := time (clock_reads w) in
  let w1 := after_eviction time (key_of c) w in
  let entry := user_messages (self w1) !! key_of c in
  do_call time c w
  = match c with
    | CanSend _ => (ABool (admissible ws mr now entry), w1)
    | RecordMessage k =>
        if admissible ws mr now entry
        then (ABool true, after_append time k w1)
        else (ABool false, w1)
    | TimeUntil _ => (ATime (wait_time ws mr now entry), w1)
    end.
Proof.
  intros ws mr now w1 entry. subst ws mr now w1 entry.
  destruct c as [k|k|k]; unfold do_call, key_of.
  - rewrite can_send_message_eq. reflexivity.
  - rewrite record_message_eq. destruct (admissible _ _ _ _); reflexivity.
  - rewrite time_until_next_allowed_eq. reflexivity.
Qed.

Lemma do_call_policy (time : nat -> Z) (c : call) (w : world) :
  window_size (self (snd (do_call time c w))) = window_size (self w)
  /\ max_requests (self (snd (do_call time c w))) = max_requests (self w).
Proof.
  rewrite do_call_eq. destruct c; cbn; try (split; reflexivity).
  destruct (admissible _ _ _ _); split; reflexivity.
Qed.

Lemma do_call_other (time : nat -> Z) (c : call) (w : world) (k' : string) :
  key_of c <> k' ->
  user_messages (self (snd (do_call time c w))) !! k'
  = user_messages (self w) !! k'.
Proof.
  intros Hne. rewrite do_call_eq. cbv zeta.
  destruct c as [k|k|k]; cbn [key_of fst snd] in *.
  - apply after_eviction_other, Hne.
  - destruct (admissible _ _ _ _); cbn [fst snd].
    + rewrite after_append_other by exact Hne. apply after_eviction_other, Hne.
    + apply after_eviction_other, Hne.
  - apply after_eviction_other, Hne.
Qed.

(** The clock only moves forward through a call, by one or two readings. *)
Lemma do_call_clock (time : nat -> Z) (c : call) (w : world) :
  clock_reads (snd (do_call time c w)) = S (clock_reads w)
  \/ clock_reads (snd (do_call time c w)) = S (S (clock_reads w)).
Proof.
  rewrite do_call_eq. destruct c; cbn; try (left; reflexivity).
  destruct (admissible _ _ _ _); [right | left]; reflexivity.
Qed.

(** The entry of the key after the eviction is a function of the policy,
    the reading and the entry before. *)
Lemma after_eviction_entry_ext (time : nat -> Z) (k : string) (w w2 : world) :
  window_size (self w2) = window_size (self w) ->
  clock_reads w2 = clock_reads w ->
  user_messages (self w2) !! k = user_messages (self w) !! k ->
  user_messages (self (after_eviction time k w2)) !! k
  = user_messages (self (after_eviction time k w)) !! k.
Proof.
  intros Hws Hn Hk. rewrite !after_eviction_entry. unfold deque_of.
  rewrite Hws, Hn, Hk. reflexivity.
Qed.

Lemma run_invariant (time : nat -> Z) (P : world -> Prop) :
  (forall c w, P w -> P (snd (do_call time c w))) ->
  forall cs w, P w -> P (run time cs w).
Proof.
  intros Hstep cs. induction cs as [|c cs IH]; intros w Hw; [exact Hw|].
  cbn. apply IH, Hstep, Hw.
Qed.


Lemma do_call_no_empty_deque (time : nat -> Z) (c : call) (w : world) :
  no_empty_deque w -> no_empty_deque (snd (do_call time c w)).
Proof.
  intros Hw k'. destruct (decide (key_of c = k')) as [<-|Hne].
  - rewrite do_call_eq. cbv zeta. destruct c as [k|k|k]; cbn [key_of fst snd].
    + apply after_eviction_never_empty.
    + destruct (admissible _ _ _ _); cbn [fst snd].
      * unfold after_append. cbn. rewrite lookup_insert_eq. intros H. injection H as H.
        destruct (deque_of k (after_eviction time k w)); discriminate.
      * apply after_eviction_never_empty.
    + apply after_eviction_never_empty.
  - rewrite do_call_other by exact Hne. apply Hw.
Qed.

Lemma slow_clock_monotone : monotone slow_clock.
Proof. intros i j Hij. unfold slow_clock. lia. Qed.

Lemma ticking_clock_monotone : monotone ticking_clock.
Proof. intros i j Hij. unfold ticking_clock. lia. Qed.

(** ** The clock readings of [record_message] *)

(** C5, as the code has it: [record_message] reads the clock in
    [can_send_message], and that reading [now] serves the eviction and the
    check; when the request is admitted it reads the clock a second time and
    appends this second reading. A refused call reads the clock once. With a
    clock that never goes back the appended timestamp is not before [now]. *)
Theorem record_message_clock (time : nat -> Z) (k : string) (w : world) :
  let ws := window_size (self w) in
  let mr := max_requests (self w) in
  let now := time (clock_reads w) in
  let stamp := time (S (clock_reads w)) in
  let left := popleft_while ws now (deque_of k w) in
  exists (b : bool) (w' : world),
    record_message time k w = (Returned b, w')
    /\ b = admissible ws mr now (kept left)
    /\ (b = true ->
        clock_reads w' = S (S (clock_reads w))
        /\ deque_of k w' = left ++ [stamp])
    /\ (b = false ->
        clock_reads w' = S (clock_reads w) /\ deque_of k w' = left)
    /\ (monotone time -> now <= stamp).
Proof.
  intros ws mr now stamp left. rewrite record_message_eq.
  rewrite after_eviction_entry. fold ws mr now left.
  destruct (admissible ws mr now (kept left)) eqn:Hadm; eexists _, _;
    (split; [reflexivity|]); (split; [reflexivity|]);
    (split; [|split]); try discriminate.
  - intros _. split; [reflexivity|].
    rewrite after_append_deque, after_eviction_deque. reflexivity.
  - intros Hmono. apply Hmono. lia.
  - intros _. split; [reflexivity|]. apply after_eviction_deque.
  - intros Hmono. apply Hmono. lia.
Qed.

Lemma record_message_clock_witness :
  monotone ticking_clock
  /\ deque_of "u1" (snd (record_message ticking_clock "u1" (fresh 10 1))) = [1].
Proof.
  split; [exact ticking_clock_monotone|].
  destruct (record_message_clock ticking_clock "u1" (fresh 10 1))
    as (b & w' & Heq & Hb & Htrue & _ & _).
  rewrite Heq. cbn [snd].
  assert (b = true) as Hb' by (rewrite Hb; vm_compute; reflexivity).
  destruct (Htrue Hb') as [_ Hd]. rewrite Hd. vm_compute. reflexivity.
Defined.

(** C5, as the claim states it, fails on a new limiter with a clock that
    ticks: the check is made at 0, the timestamp appended is 1, and two
    readings are taken. *)
Lemma record_message_reads_clock_twice :
  ~ single_clock_reading ticking_clock "u1" (fresh 10 1).
Proof.
  intros [Hreads _]. vm_compute in Hreads. discriminate Hreads.
Qed.

(** ** Presence of a key in the dictionary *)

(** C7, as the code has it. After [can_send_message] or
    [time_until_next_allowed] on a key, the key is in the dictionary iff
    entries are left after the eviction at the reading of the call; after
    [record_message] it is there iff entries are left or the request was
    admitted; in no case does it map to an empty deque, and no dictionary
    reached from a new limiter has an empty deque. A key with a deque in
    time order whose newest timestamp is at least [window_size] old is
    removed by [can_send_message] and [time_until_next_allowed], whereas
    [record_message] replaces its deque by the one timestamp it appends. *)
Theorem key_present_iff_entries_left (time : nat -> Z) (k : string) (w : world) :
  let ws := window_size (self w) in
  let now := time (clock_reads w) in
  let left := popleft_while ws now (deque_of k w) in
  let entry_after (c : call) := user_messages (self (snd (do_call time c w))) !! k in
  (forall c, c = CanSend k \/ c = TimeUntil k ->
     entry_after c <> Some []
     /\ (is_Some (entry_after c) <-> left <> []))
  /\ entry_after (RecordMessage k) <> Some []
  /\ (is_Some (entry_after (RecordMessage k)) <->
      left <> [] \/ fst (do_call time (RecordMessage k) w) = ABool true)
  /\ (forall t,
        StronglySorted Z.le (deque_of k w) ->
        last (deque_of k w) = Some t -> now - t >= ws ->
        entry_after (CanSend k) = None
        /\ entry_after (TimeUntil k) = None
        /\ entry_after (RecordMessage k) = Some [time (S (clock_reads w))])
  /\ (forall cs ws0 mr0, no_empty_deque (run time cs (fresh ws0 mr0))).
Proof.
  intros ws now left entry_after. subst entry_after. cbv beta.
  assert (forall c, c = CanSend k \/ c = TimeUntil k ->
            user_messages (self (snd (do_call time c w))) !! k = kept left) as Hread.
  { intros c [-> | ->]; rewrite do_call_eq; cbn [key_of fst snd];
      apply after_eviction_entry. }
  assert (kept left <> Some [] /\ (is_Some (kept left) <-> left <> [])) as Hkept.
  { destruct left; cbn; split; try discriminate.
    - split; [intros [x Hx]; discriminate | congruence].
    - split; [discriminate | eauto]. }
  assert (user_messages (self (snd (do_call time (RecordMessage k) w))) !! k
          = if admissible ws (max_requests (self w)) now (kept left)
            then Some (left ++ [time (S (clock_reads w))])
            else kept left) as Hrec.
  { rewrite do_call_eq. cbv zeta. cbn [key_of]. rewrite after_eviction_entry.
    fold ws now left. destruct (admissible _ _ _ _); cbn [snd].
    - unfold after_append. cbn. rewrite lookup_insert_eq.
      f_equal. f_equal.
      apply (after_eviction_deque time k w).
    - apply after_eviction_entry. }
  split; [|split; [|split; [|split]]].
  - intros c Hc. rewrite (Hread c Hc). exact Hkept.
  - rewrite Hrec. destruct (admissible _ _ _ _); [|apply Hkept].
    destruct left; discriminate.
  - rewrite Hrec, do_call_eq. cbv zeta. cbn [key_of].
    rewrite after_eviction_entry. fold ws now left.
    destruct (admissible _ _ _ _); cbn [fst].
    + split; [intros _; right; reflexivity | eauto].
    + destruct Hkept as [_ ->]. split; [tauto|].
      intros [H|H]; [exact H | discriminate].
  - intros t Hs Hl Hold.
    assert (left = []) as Hleft by (apply (popleft_while_idle ws now _ t); assumption).
    rewrite !Hread by auto. rewrite Hrec, Hleft. cbn. auto.
  - intros cs ws0 mr0. apply run_invariant.
    + intros c w0. apply do_call_no_empty_deque.
    + intros k'. cbn. rewrite lookup_empty. discriminate.
Qed.

Lemma idle_world_deque : deque_of "u1" idle_world = [10].
Proof. vm_compute. reflexivity. Qed.

Lemma key_present_iff_entries_left_witness :
  StronglySorted Z.le (deque_of "u1" idle_world)
  /\ last (deque_of "u1" idle_world) = Some 10
  /\ slow_clock (clock_reads idle_world) - 10 >= window_size (self idle_world)
  /\ user_messages (self (snd (do_call slow_clock (CanSend "u1") idle_world)))
       !! "u1" = None
  /\ user_messages (self (snd (do_call slow_clock (RecordMessage "u1") idle_world)))
       !! "u1" = Some [30].
Proof.
  assert (StronglySorted Z.le (deque_of "u1" idle_world)) as Hs.
  { rewrite idle_world_deque. repeat constructor. }
  assert (last (deque_of "u1" idle_world) = Some 10) as Hl.
  { rewrite idle_world_deque. reflexivity. }
  assert (slow_clock (clock_reads idle_world) - 10
          >= window_size (self idle_world)) as Hold.
  { vm_compute. discriminate. }
  destruct (key_present_iff_entries_left slow_clock "u1" idle_world)
    as (_ & _ & _ & Hidle & _).
  destruct (Hidle 10 Hs Hl Hold) as (Hcan & _ & Hrec).
  repeat split; try assumption.
Defined.

(** C7, as the claim states it, fails for [record_message]: the key "u1",
    whose only timestamp 10 is 10 old at the reading 20, is in the
    dictionary after the call. *)
Lemma record_message_keeps_idle_key :
  ~ idle_key_removed slow_clock (RecordMessage "u1") idle_world.
Proof.
  intros H. specialize (H 10). cbn [key_of] in H.
  rewrite idle_world_deque in H. specialize (H eq_refl).
  assert (slow_clock (clock_reads idle_world) - 10
          >= window_size (self idle_world)) as Hold by (vm_compute; discriminate).
  specialize (H Hold). vm_compute in H. discriminate H.
Qed.

(** ** Independence of the keys *)

(** C9: a call on a key leaves the entry of every other key as it is, and
    its answer and the entry it leaves for its own key are the same in any
    two worlds with the same policy and clock that agree on the entry of
    that key, whatever the entries of the other keys are. *)
Theorem keys_independent (time : nat -> Z) (c : call) (w : world) (k' : string) :
  key_of c <> k' ->
  user_messages (self (snd (do_call time c w))) !! k'
  = user_messages (self w) !! k'
  /\ forall w2 : world,
       window_size (self w2) = window_size (self w) ->
       max_requests (self w2) = max_requests (self w) ->
       clock_reads w2 = clock_reads w ->
       user_messages (self w2) !! key_of c = user_messages (self w) !! key_of c ->
       fst (do_call time c w2) = fst (do_call time c w)
       /\ user_messages (self (snd (do_call time c w2))) !! key_of c
          = user_messages (self (snd (do_call time c w))) !! key_of c.
Proof.
  intros Hne. split; [apply do_call_other, Hne|].
  intros w2 Hws Hmr Hn Hk.
  pose proof (after_eviction_entry_ext time (key_of c) w w2 Hws Hn Hk) as Hentry.
  assert (deque_of (key_of c) (after_eviction time (key_of c) w2)
          = deque_of (key_of c) (after_eviction time (key_of c) w)) as Hdeque.
  { unfold deque_of. rewrite Hentry. reflexivity. }
  rewrite !do_call_eq. cbv zeta. rewrite Hws, Hmr, Hn, Hentry.
  destruct c as [k|k|k]; cbn [key_of fst snd] in *.
  - split; [reflexivity | exact Hentry].
  - destruct (admissible _ _ _ _); cbn [fst snd].
    + split; [reflexivity|]. unfold after_append. cbn.
      rewrite !lookup_insert_eq. cbn in Hdeque. rewrite Hdeque, Hn. reflexivity.
    + split; [reflexivity | exact Hentry].
  - split; [reflexivity | exact Hentry].
Qed.

Lemma keys_independent_witness :
  "u2" <> "u1"
  /\ user_messages (self (snd (do_call slow_clock (RecordMessage "u2") idle_world)))
       !! "u1" = Some [10].
Proof.
  assert (key_of (RecordMessage "u2") <> "u1") as Hne by (cbn; discriminate).
  split; [exact Hne|].
  destruct (keys_independent slow_clock (RecordMessage "u2") idle_world "u1" Hne)
    as [Hframe _].
  rewrite Hframe. vm_compute. reflexivity.
Defined.

(** ** Instances on the two sample worlds *)

Lemma can_send_message_spec_witness :
  StronglySorted Z.le (deque_of "u1" idle_world)
  /\ fst (record_message slow_clock "u1" idle_world) = Returned true.
Proof.
  assert (StronglySorted Z.le (deque_of "u1" idle_world)) as Hs.
  { rewrite idle_world_deque. repeat constructor. }
  split; [exact Hs|].
  destruct (can_send_message_spec slow_clock "u1" idle_world Hs)
    as (b & w' & _ & _ & _ & _ & Hrec).
  apply (Hrec eq_refl eq_refl 10).
  - rewrite idle_world_deque. reflexivity.
  - reflexivity.
Defined.

Lemma busy_world_entry : user_messages (self busy_world) !! "u1" = Some [1].
Proof. vm_compute. reflexivity. Qed.

Lemma record_message_spec_witness :
  (forall q, user_messages (self busy_world) !! "u1" = Some q ->
             Z.of_nat (length q) <= max_requests (self busy_world))
  /\ fst (record_message ticking_clock "u1" busy_world) = Returned false
  /\ self (snd (record_message ticking_clock "u1" busy_world)) = self busy_world.
Proof.
  assert (forall q, user_messages (self busy_world) !! "u1" = Some q ->
                    Z.of_nat (length q) <= max_requests (self busy_world)) as Hlen.
  { intros q. rewrite busy_world_entry. intros H. injection H as <-.
    vm_compute. discriminate. }
  split; [exact Hlen|].
  destruct (record_message_spec ticking_clock "u1" busy_world Hlen)
    as (b & w' & Heq & Hcan & _ & Hfalse).
  assert (b = false) as ->.
  { vm_compute in Hcan. injection Hcan as <-. reflexivity. }
  rewrite Heq. split; [reflexivity | exact (Hfalse eq_refl)].
Defined.

Lemma can_send_message_simplified_witness :
  1 <= max_requests (self busy_world)
  /\ can_send_message ticking_clock "u1" busy_world
     = can_send_simplified ticking_clock "u1" busy_world
  /\ fst (can_send_message ticking_clock "u1" busy_world) = Returned false.
Proof.
  assert (1 <= max_requests (self busy_world)) as Hmr by (vm_compute; discriminate).
  split; [exact Hmr|].
  destruct (can_send_message_simplified ticking_clock "u1" busy_world Hmr)
    as [Heq Hfull].
  split; [exact Heq|]. apply Hfull. vm_compute. reflexivity.
Defined.

(** ** [can_send_message] as a read *)

Lemma after_eviction_seen (time : nat -> Z) (k : string) (w : world) :
  user_messages (self (after_eviction time k w)) !! k
  = seen (window_size (self w)) (time (clock_reads w)) (user_messages (self w) !! k).
Proof. unfold after_eviction. cbn. apply evicted_lookup. Qed.

Lemma seen_later (ws now now' : Z) (entry : option (list Z)) :
  now <= now' -> seen ws now' (seen ws now entry) = seen ws now' entry.
Proof.
  intros Hle. destruct entry as [q|]; [|reflexivity]. cbn.
  rewrite <- (popleft_while_later ws now now' q Hle).
  destruct (popleft_while ws now q); reflexivity.
Qed.

Lemma alike_refl (time : nat -> Z) (w : world) : alike time w w.
Proof. repeat split. Qed.

Section Alike.

Variable time : nat -> Z.
Hypothesis time_monotone : monotone time.

(** A [can_send_message] on one side, only the clock moved on the other. *)
Lemma alike_can_send (k : string) (w1 w2 : world) :
  alike time w1 w2 ->
  alike time (snd (do_call time (CanSend k) w1))
             (World (self w2) (S (clock_reads w2))).
Proof.
  intros (Hws & Hmr & Hn & Hseen). rewrite do_call_eq. cbn [key_of snd].
  split; [exact Hws|]. split; [exact Hmr|]. split; [cbn; f_equal; exact Hn|].
  intros j now Hnow. cbn [after_eviction self clock_reads window_size] in *.
  assert (time (clock_reads w1) <= now) as Hnow'.
  { etrans; [|exact Hnow]. apply time_monotone. lia. }
  change (user_messages (self (World (self w2) (S (clock_reads w2)))))
    with (user_messages (self w2)).
  rewrite <- (Hseen j now Hnow').
  destruct (decide (k = j)) as [<-|Hne].
  - pose proof (after_eviction_seen time k w1) as Hk.
    unfold after_eviction in Hk. cbn in Hk. cbn. rewrite Hk.
    apply seen_later. etrans; [|exact Hnow]. apply time_monotone. lia.
  - pose proof (after_eviction_other time k w1 j Hne) as Hj.
    unfold after_eviction in Hj. cbn in Hj. cbn. rewrite Hj. reflexivity.
Qed.

(** The same call on both sides. *)
Lemma alike_do_call (c : call) (w1 w2 : world) :
  alike time w1 w2 ->
  fst (do_call time c w1) = fst (do_call time c w2)
  /\ alike time (snd (do_call time c w1)) (snd (do_call time c w2)).
Proof.
  intros (Hws & Hmr & Hn & Hseen).
  assert (user_messages (self (after_eviction time (key_of c) w1)) !! key_of c
          = user_messages (self (after_eviction time (key_of c) w2)) !! key_of c)
    as Hentry.
  { rewrite !after_eviction_seen, <- Hws, <- Hn. apply Hseen. lia. }
  assert (forall j now,
            time (clock_reads w1) <= now ->
            seen (window_size (self w1)) now
              (user_messages (self (after_eviction time (key_of c) w1)) !! j)
            = seen (window_size (self w1)) now
                (user_messages (self (after_eviction time (key_of c) w2)) !! j))
    as Hseen1.
  { intros j now Hnow. destruct (decide (key_of c = j)) as [<-|Hne].
    - rewrite Hentry. reflexivity.
    - rewrite !after_eviction_other by exact Hne. apply Hseen, Hnow. }
  assert (forall n, (clock_reads w1 <= n)%nat ->
                    forall now, time n <= now -> time (clock_reads w1) <= now)
    as Hlater.
  { intros n Hn' now Hnow. etrans; [|exact Hnow]. apply time_monotone, Hn'. }
  rewrite !do_call_eq. cbv zeta. rewrite <- Hws, <- Hmr, <- Hn, <- Hentry.
  destruct c as [k|k|k]; cbn [key_of fst snd] in *.
  - split; [reflexivity|]. repeat split; cbn; try congruence.
    intros j now Hnow. apply Hseen1, (Hlater (S (clock_reads w1))); [lia | exact Hnow].
  - destruct (admissible _ _ _ _); cbn [fst snd].
    + split; [reflexivity|]. repeat split; cbn; try congruence.
      intros j now Hnow.
      assert (time (clock_reads w1) <= now) as Hnow'
        by (apply (Hlater (S (S (clock_reads w1)))); [lia | exact Hnow]).
      destruct (decide (k = j)) as [<-|Hne].
      * rewrite !lookup_insert_eq. unfold deque_of.
        fold (after_eviction time k w1). fold (after_eviction time k w2).
        rewrite Hentry, Hn. reflexivity.
      * rewrite !lookup_insert_ne by exact Hne.
        apply (Hseen1 j now Hnow').
    + split; [reflexivity|]. repeat split; cbn; try congruence.
      intros j now Hnow. apply Hseen1, (Hlater (S (clock_reads w1))); [lia | exact Hnow].
  - split; [reflexivity|]. repeat split; cbn; try congruence.
    intros j now Hnow. apply Hseen1, (Hlater (S (clock_reads w1))); [lia | exact Hnow].
Qed.

Lemma alike_answers (cs : list call) (w1 w2 : world) :
  alike time w1 w2 -> answers time cs w1 = answers time cs w2.
Proof.
  revert w1 w2. induction cs as [|c cs IH]; intros w1 w2 H; [reflexivity|].
  destruct (alike_do_call c w1 w2 H) as [Hans Hnext].
  cbn. rewrite Hans. f_equal. apply IH, Hnext.
Qed.

Lemma alike_reads (pre : list call) (w1 w2 : world) :
  Forall is_can_send pre -> alike time w1 w2 ->
  alike time (run time pre w1) (World (self w2) (clock_reads (run time pre w1))).
Proof.
  intros Hpre. revert w1 w2.
  induction Hpre as [|c pre Hc _ IH]; intros w1 w2 H.
  - cbn. destruct H as (Hws & Hmr & Hn & Hseen). repeat split; assumption.
  - destruct c as [k| |]; try contradiction. cbn [run].
    apply (IH _ (World (self w2) (S (clock_reads w2)))).
    apply alike_can_send, H.
Qed.

End Alike.

(** C8: with a clock that never goes back, after any number of
    [can_send_message] calls (on any keys) every later sequence of calls
    gets the answers it would get had those calls only let the clock
    advance and left the limiter as it was. *)
Theorem can_send_message_idempotent_read
    (time : nat -> Z) (pre post : list call) (w : world) :
  monotone time ->
  Forall is_can_send pre ->
  answers time post (run time pre w)
  = answers time post (World (self w) (clock_reads (run time pre w))).
Proof.
  intros Hmono Hpre. apply alike_answers; [exact Hmono|].
  apply alike_reads; [exact Hmono | exact Hpre | apply alike_refl].
Qed.

Lemma can_send_message_idempotent_read_witness :
  monotone slow_clock
  /\ Forall is_can_send [CanSend "u1"; CanSend "u1"]
  /\ answers slow_clock [RecordMessage "u1"; TimeUntil "u1"]
       (run slow_clock [CanSend "u1"; CanSend "u1"] idle_world)
     = [ABool true; ATime 0].
Proof.
  assert (Forall is_can_send [CanSend "u1"; CanSend "u1"]) as Hpre
    by (repeat constructor).
  split; [exact slow_clock_monotone|]. split; [exact Hpre|].
  rewrite (can_send_message_idempotent_read slow_clock
             [CanSend "u1"; CanSend "u1"] [RecordMessage "u1"; TimeUntil "u1"]
             idle_world slow_clock_monotone Hpre).
  vm_compute. reflexivity.
Defined.

(** ** The bound on every window *)

Lemma count_in_window_app (ws x : Z) (l1 l2 : list Z) :
  count_in_window ws x (l1 ++ l2)
  = count_in_window ws x l1 + count_in_window ws x l2.
Proof. unfold count_in_window. rewrite filter_app, length_app. lia. Qed.

Lemma count_in_window_length (ws x : Z) (l : list Z) :
  count_in_window ws x l <= Z.of_nat (length l).
Proof. unfold count_in_window. pose proof (length_filter (fun t => in_window ws x t = true) l). lia. Qed.

Lemma in_window_iff (ws x t : Z) : in_window ws x t = true <-> x - ws < t <= x.
Proof. unfold in_window. rewrite andb_true_iff, Z.ltb_lt, Z.leb_le. tauto. Qed.

Lemma count_in_window_outside (ws x : Z) (l : list Z) :
  Forall (fun e => e <= x - ws) l -> count_in_window ws x l = 0.
Proof.
  intros H. unfold count_in_window. rewrite filter_drops_all; [reflexivity|].
  eapply Forall_impl; [exact H|]. cbn. intros e He. rewrite in_window_iff. lia.
Qed.

Lemma appended_by_other (time : nat -> Z) (k : string) (c : call) (w : world) :
  key_of c <> k -> appended_by time k c w = [].
Proof.
  intros Hne. unfold appended_by. destruct c as [k'|k'|k']; try reflexivity.
  destruct (fst (do_call time (RecordMessage k') w)) as [[|]| |]; try reflexivity.
  cbn in Hne. rewrite bool_decide_eq_false_2 by exact Hne. reflexivity.
Qed.

Section Bound.

Variable time : nat -> Z.
Hypothesis time_monotone : monotone time.
Variables ws mr : Z.
Hypothesis one_request : 1 <= mr.
Variable k : string.


Lemma invariant_after_eviction (w : world) (past : list Z) :
  bound_invariant time ws mr k w past ->
  bound_invariant time ws mr k (after_eviction time k w) past.
Proof.
  intros (Hws & Hmr & (gone & Hpast & Hgone) & Hbound).
  split; [exact Hws|]. split; [exact Hmr|]. split; [|exact Hbound].
  rewrite after_eviction_deque, Hws.
  destruct (popleft_while_split ws (time (clock_reads w)) (deque_of k w))
    as (gone2 & Hsplit & Hgone2).
  exists (gone ++ gone2). split.
  - rewrite <- app_assoc, <- Hsplit. exact Hpast.
  - assert (time (clock_reads w) <= time (S (clock_reads w))) as Hstep
      by (apply time_monotone; lia).
    apply Forall_app. split.
    + eapply Forall_impl; [exact Hgone|]. cbn. intros e He. lia.
    + eapply Forall_impl; [exact Hgone2|]. unfold expired. cbn. intros e He. lia.
Qed.

Lemma invariant_after_append (w : world) (past : list Z) :
  bound_invariant time ws mr k w past ->
  Z.of_nat (length (deque_of k w)) < mr ->
  bound_invariant time ws mr k (after_append time k w)
    (past ++ [time (clock_reads w)]).
Proof.
  intros (Hws & Hmr & (gone & Hpast & Hgone) & Hbound) Hlen.
  split; [exact Hws|]. split; [exact Hmr|]. split.
  - exists gone. split.
    + rewrite after_append_deque, app_assoc, <- Hpast. reflexivity.
    + eapply Forall_impl; [exact Hgone|]. cbn. intros e He.
      etrans; [exact He|]. apply time_monotone. lia.
  - intros x. set (stamp := time (clock_reads w)).
    destruct (in_window ws x stamp) eqn:Hin.
    + apply in_window_iff in Hin.
      rewrite Hpast, !count_in_window_app.
      rewrite (count_in_window_outside ws x gone).
      * pose proof (count_in_window_length ws x (deque_of k w)).
        pose proof (count_in_window_length ws x [stamp]). cbn in *. lia.
      * eapply Forall_impl; [exact Hgone|]. cbn. intros e He. fold stamp in He. lia.
    + rewrite count_in_window_app.
      assert (count_in_window ws x [stamp] = 0) as ->.
      { unfold count_in_window. rewrite filter_cons_False; [reflexivity|].
        rewrite Hin. discriminate. }
      rewrite Z.add_0_r. apply Hbound.
Qed.

Lemma invariant_do_call (c : call) (w : world) (past : list Z) :
  bound_invariant time ws mr k w past ->
  bound_invariant time ws mr k (snd (do_call time c w))
    (past ++ appended_by time k c w).
Proof.
  intros Hinv. destruct (decide (key_of c = k)) as [Hk|Hne].
  - pose proof (invariant_after_eviction w past Hinv) as Hinv1.
    destruct c as [k'|k'|k']; cbn [key_of] in Hk; subst k';
      unfold appended_by; rewrite !do_call_eq; cbv zeta; cbn [key_of fst snd];
      try (rewrite app_nil_r; exact Hinv1).
    rewrite admissible_after_eviction.
    destruct Hinv as (Hws & Hmr & _).
    destruct (user_messages (self (after_eviction time k w)) !! k) as [q|] eqn:Hq.
    + destruct (Z.of_nat (length q) <? max_requests (self w)) eqn:Hlt;
        cbn [fst snd]; [|rewrite app_nil_r; exact Hinv1].
      rewrite bool_decide_eq_true_2 by reflexivity.
      rewrite after_append_deque, last_snoc. cbn [option_list].
      apply invariant_after_append; [exact Hinv1|].
      unfold deque_of. rewrite Hq. cbn. apply Z.ltb_lt in Hlt. lia.
    + cbn [fst snd]. rewrite bool_decide_eq_true_2 by reflexivity.
      rewrite after_append_deque, last_snoc. cbn [option_list].
      apply invariant_after_append; [exact Hinv1|].
      unfold deque_of. rewrite Hq. cbn. lia.
  - rewrite appended_by_other by exact Hne. rewrite app_nil_r.
    destruct Hinv as (Hws & Hmr & (gone & Hpast & Hgone) & Hbound).
    destruct (do_call_policy time c w) as [Hws' Hmr'].
    split; [congruence|]. split; [congruence|]. split; [|exact Hbound].
    exists gone. split.
    + unfold deque_of. rewrite do_call_other by exact Hne. exact Hpast.
    + eapply Forall_impl; [exact Hgone|]. cbn. intros e He.
      etrans; [exact He|]. apply time_monotone.
      destruct (do_call_clock time c w) as [-> | ->]; lia.
Qed.

Lemma invariant_admitted (cs : list call) (w : world) (past : list Z) :
  bound_invariant time ws mr k w past ->
  forall x, count_in_window ws x (past ++ admitted time k cs w) <= mr.
Proof.
  revert w past. induction cs as [|c cs IH]; intros w past Hinv x.
  - cbn. rewrite app_nil_r. destruct Hinv as (_ & _ & _ & Hbound). apply Hbound.
  - cbn [admitted]. rewrite app_assoc. apply IH, invariant_do_call, Hinv.
Qed.

End Bound.

(** C1: with a clock that never goes back and a policy that allows at least
    one request, among the timestamps recorded for a key by any sequence of
    calls on a new limiter, at most [max_requests] lie in the interval of
    length [window_size] that ends at [x], whatever [x] is. The interval is
    open at its old end, as the window of the eviction is: a timestamp
    exactly [window_size] before [x] is outside. *)
Theorem bound_property
    (time : nat -> Z) (ws mr : Z) (k : string) (cs : list call) (x : Z) :
  monotone time -> 1 <= mr -> 0 < ws ->
  count_in_window ws x (admitted time k cs (fresh ws mr)) <= mr.
Proof.
  intros Hmono Hmr _.
  apply (invariant_admitted time Hmono ws mr Hmr k cs (fresh ws mr) []).
  split; [reflexivity|]. split; [reflexivity|]. split.
  - exists []. split; [reflexivity | constructor].
  - intros y. unfold count_in_window. cbn. lia.
Qed.

Lemma bound_property_witness :
  monotone ticking_clock /\ 1 <= 1 /\ 0 < 10
  /\ count_in_window 10 12
       (admitted ticking_clock "u1" (replicate 11 (RecordMessage "u1")) (fresh 10 1))
     <= 1.
Proof.
  assert (1 <= 1) as Hmr by lia. assert (0 < 10) as Hws by lia.
  split; [exact ticking_clock_monotone|]. split; [exact Hmr|]. split; [exact Hws|].
  apply (bound_property ticking_clock 10 1 "u1" _ 12 ticking_clock_monotone Hmr Hws).
Defined.

Example admitted_ticking :
  admitted ticking_clock "u1" (replicate 11 (RecordMessage "u1")) (fresh 10 1)
  = [1; 12].
Proof. vm_compute. reflexivity. Qed.

(** ** The worlds a limiter reaches *)

Section Reachable.

Variable time : nat -> Z.
Hypothesis time_monotone : monotone time.

Lemma well_formed_after_eviction (k : string) (w : world) :
  well_formed time k w -> well_formed time k (after_eviction time k w).
Proof.
  intros (Hs & Hle & Hlen). unfold well_formed.
  rewrite after_eviction_deque.
  destruct (popleft_while_split (window_size (self w)) (time (clock_reads w))
              (deque_of k w)) as (gone & Hsplit & _).
  set (left := popleft_while _ _ _) in *.
  rewrite Hsplit in Hs, Hle, Hlen. rewrite length_app in Hlen.
  apply StronglySorted_app_1_r in Hs. apply Forall_app in Hle as [_ Hle].
  split; [exact Hs|]. split; [|cbn; lia].
  eapply Forall_impl; [exact Hle|]. cbn. intros t Ht.
  etrans; [exact Ht|]. apply time_monotone. lia.
Qed.

Lemma well_formed_after_append (k : string) (w : world) :
  well_formed time k w ->
  Z.of_nat (length (deque_of k w)) < max_requests (self w) ->
  well_formed time k (after_append time k w).
Proof.
  intros (Hs & Hle & _) Hlen. unfold well_formed.
  rewrite after_append_deque, length_app. cbn [length after_append self
    max_requests clock_reads].
  assert (time (clock_reads w) <= time (S (clock_reads w))) as Hstep
    by (apply time_monotone; lia).
  split; [|split; [|lia]].
  - apply StronglySorted_app. split; [|split; [exact Hs | repeat constructor]].
    intros t u Ht Hu. apply list_elem_of_singleton in Hu. subst u.
    rewrite Forall_forall in Hle. apply Hle, Ht.
  - apply Forall_app. split.
    + eapply Forall_impl; [exact Hle|]. cbn. intros t Ht. lia.
    + repeat constructor. exact Hstep.
Qed.

Lemma well_formed_do_call (c : call) (w : world) :
  1 <= max_requests (self w) ->
  (forall k, well_formed time k w) ->
  forall k, well_formed time k (snd (do_call time c w)).
Proof.
  intros Hmr Hw k. destruct (decide (key_of c = k)) as [Hk|Hne].
  - pose proof (well_formed_after_eviction k w (Hw k)) as Hw1.
    destruct c as [k'|k'|k']; cbn [key_of] in Hk; subst k';
      rewrite do_call_eq; cbv zeta; cbn [key_of fst snd]; try exact Hw1.
    rewrite admissible_after_eviction.
    destruct (user_messages (self (after_eviction time k w)) !! k) as [q|] eqn:Hq.
    + destruct (Z.of_nat (length q) <? max_requests (self w)) eqn:Hlt;
        cbn [snd]; [|exact Hw1].
      apply well_formed_after_append; [exact Hw1|].
      unfold deque_of. rewrite Hq. cbn. apply Z.ltb_lt in Hlt. lia.
    + cbn [snd]. apply well_formed_after_append; [exact Hw1|].
      unfold deque_of. rewrite Hq. cbn. lia.
  - destruct (Hw k) as (Hs & Hle & Hlen).
    destruct (do_call_policy time c w) as [_ Hmr'].
    unfold well_formed, deque_of. rewrite do_call_other by exact Hne.
    fold (deque_of k w). rewrite Hmr'.
    split; [exact Hs|]. split; [|exact Hlen].
    eapply Forall_impl; [exact Hle|]. cbn. intros t Ht.
    etrans; [exact Ht|]. apply time_monotone.
    destruct (do_call_clock time c w) as [-> | ->]; lia.
Qed.

(** Every world reached from a new limiter that allows at least one request
    satisfies, for every key, what C3 and C4 suppose of the deque. *)
Lemma reachable_well_formed (ws mr : Z) (cs : list call) (k : string) :
  1 <= mr -> well_formed time k (run time cs (fresh ws mr)).
Proof.
  intros Hmr.
  apply (run_invariant time
           (fun w => 1 <= max_requests (self w) /\ forall j, well_formed time j w)).
  - intros c w [Hw1 Hw2]. split.
    + destruct (do_call_policy time c w) as [_ ->]. exact Hw1.
    + apply well_formed_do_call; assumption.
  - split; [exact Hmr|]. intros j. unfold well_formed, deque_of. cbn.
    rewrite lookup_empty. cbn. repeat split; [constructor | constructor | lia].
Qed.

End Reachable.

(** * Further properties of the methods *)

(** ** No exception *)

(** X1: no call of a public method raises, whatever the world is (a key
    mapped to an empty deque included) and whatever the clock reads: the
    [in] tests guard every subscript, and [_cleanup_window] deletes a deque
    it has emptied before anyone reads [q[0]]. [_cleanup_window] itself
    returns too. *)
Theorem public_methods_never_raise
    (time : nat -> Z) (cs : list call) (w : world) (k : string) (t : Z) :
  Forall (fun a => forall e, a <> AExn e) (answers time cs w)
  /\ fst (_cleanup_window k t w) = Returned tt.
Proof.
  split; [|rewrite cleanup_window_eq; reflexivity].
  revert w. induction cs as [|c cs IH]; intros w; [constructor|].
  cbn [answers]. constructor; [|apply IH].
  rewrite do_call_eq. cbv zeta.
  destruct c; cbn [fst]; try discriminate.
  destruct (admissible _ _ _ _); discriminate.
Qed.

(** ** [_cleanup_window] twice *)

Lemma evicted_later (ws t t' : Z) (k : string) (m : gmap string (list Z)) :
  t <= t' -> evicted ws t' k (evicted ws t k m) = evicted ws t' k m.
Proof.
  intros Hle. apply map_eq. intros j. destruct (decide (k = j)) as [<-|Hne].
  - rewrite !evicted_lookup.
    change (seen ws t' (seen ws t (m !! k)) = seen ws t' (m !! k)).
    apply seen_later, Hle.
  - rewrite !evicted_lookup_ne by exact Hne. reflexivity.
Qed.

(** X2: cleaning the window of a key at [t] and then at a later [t'] is
    cleaning it at [t'] only: same result, same world. In particular
    cleaning twice at the same time is cleaning once. *)
Theorem cleanup_window_twice (k : string) (t t' : Z) (w : world) :
  t <= t' ->
  (_cleanup_window k t >> _cleanup_window k t') w = _cleanup_window k t' w.
Proof.
  intros Hle. unfold bind. rewrite !cleanup_window_eq.
  destruct w as [[ws mr m] n]. unfold set_messages. cbn.
  rewrite evicted_later by exact Hle. reflexivity.
Qed.

Lemma cleanup_window_twice_witness :
  0 <= 25
  /\ snd ((_cleanup_window "u1" 0 >> _cleanup_window "u1" 25) idle_world)
     = World (Limiter 10 1 ∅) 2.
Proof.
  assert (0 <= 25) as Hle by lia. split; [exact Hle|].
  rewrite (cleanup_window_twice "u1" 0 25 idle_world Hle).
  vm_compute. reflexivity.
Defined.

(** ** The waiting time and the admission *)

Lemma wait_zero_iff_admissible (time : nat -> Z) (k : string) (w : world) :
  let entry := user_messages (self (after_eviction time k w)) !! k in
  wait_time (window_size (self w)) (max_requests (self w))
    (time (clock_reads w)) entry = 0
  <-> admissible (window_size (self w)) (max_requests (self w))
        (time (clock_reads w)) entry = true.
Proof.
  cbv zeta. rewrite admissible_after_eviction.
  pose proof (after_eviction_oldest time k w) as Hold.
  pose proof (after_eviction_never_empty time k w) as Hne.
  destruct (user_messages (self (after_eviction time k w)) !! k) as [q|]; cbn;
    [|tauto].
  destruct (Z.of_nat (length q) <? max_requests (self w)); [tauto|].
  destruct q as [|oldest rest]; [congruence|].
  specialize (Hold oldest rest eq_refl).
  split; intros H; [lia | discriminate H].
Qed.

(** X3: at the same world and clock reading, [time_until_next_allowed]
    answers 0 exactly when [can_send_message] answers [True], and the two
    calls leave the same world. *)
Theorem wait_zero_iff_can_send (time : nat -> Z) (k : string) (w : world) :
  (fst (time_until_next_allowed time k w) = Returned 0
   <-> fst (can_send_message time k w) = Returned true)
  /\ snd (time_until_next_allowed time k w) = snd (can_send_message time k w).
Proof.
  rewrite time_until_next_allowed_eq, can_send_message_eq. cbn [fst snd].
  split; [|reflexivity].
  pose proof (wait_zero_iff_admissible time k w) as H. cbv zeta in H.
  split; intros Heq.
  - injection Heq as Heq. apply H in Heq. rewrite Heq. reflexivity.
  - injection Heq as Heq. apply H in Heq. rewrite Heq. reflexivity.
Qed.

Lemma popleft_while_shorter (ws now : Z) (q : list Z) :
  (length (popleft_while ws now q) <= length q)%nat.
Proof.
  destruct (popleft_while_split ws now q) as (gone & Hq & _).
  rewrite Hq at 2. rewrite length_app. lia.
Qed.

(** The waiting time of a deque that is not longer than [mr], read at
    [now1] and again at a later [now2]. *)
Lemma wait_time_countdown (ws mr now1 now2 : Z) (q : list Z) :
  Z.of_nat (length q) <= mr -> now1 <= now2 ->
  wait_time ws mr now2
    (kept (popleft_while ws now2 (popleft_while ws now1 q)))
  = Z.max 0 (wait_time ws mr now1 (kept (popleft_while ws now1 q))
             - (now2 - now1)).
Proof.
  intros Hlen Hle.
  pose proof (popleft_while_shorter ws now1 q) as Hshort.
  pose proof (popleft_while_head ws now1 q) as Hhead.
  destruct (popleft_while ws now1 q) as [|oldest rest]; [cbn; lia|].
  specialize (Hhead oldest rest eq_refl).
  rewrite Z.geb_leb in Hhead. apply Z.leb_gt in Hhead.
  pose proof (popleft_while_shorter ws now2 (oldest :: rest)) as Hshort2.
  cbn [kept wait_time] in *.
  destruct (Z.of_nat (length (oldest :: rest)) <? mr) eqn:Hlt.
  - apply Z.ltb_lt in Hlt.
    destruct (popleft_while ws now2 (oldest :: rest)) as [|t r] eqn:E;
      cbn [kept wait_time]; [lia|].
    assert ((Z.of_nat (length (t :: r)) <? mr) = true) as ->
      by (apply Z.ltb_lt; lia).
    lia.
  - apply Z.ltb_ge in Hlt. cbn [popleft_while].
    destruct (now2 - oldest >=? ws) eqn:E.
    + apply Z.geb_le in E.
      pose proof (popleft_while_shorter ws now2 rest) as Hshort3.
      destruct (popleft_while ws now2 rest) as [|t r]; cbn [kept wait_time];
        [lia|].
      assert ((Z.of_nat (length (t :: r)) <? mr) = true) as ->
        by (apply Z.ltb_lt; cbn [length] in *; lia).
      lia.
    + rewrite Z.geb_leb in E. apply Z.leb_gt in E. cbn [kept wait_time].
      assert ((Z.of_nat (length (oldest :: rest)) <? mr) = false) as ->
        by (apply Z.ltb_ge; lia).
      lia.
Qed.

Lemma time_until_twice (time : nat -> Z) (k : string) (w : world) :
  let ws := window_size (self w) in
  let mr := max_requests (self w) in
  let now1 := time (clock_reads w) in
  let now2 := time (S (clock_reads w)) in
  let w1 := after_eviction time k w in
  user_messages (self (after_eviction time k w1)) !! k
  = kept (popleft_while ws now2 (popleft_while ws now1 (deque_of k w))).
Proof.
  cbv zeta. rewrite after_eviction_entry, after_eviction_deque. reflexivity.
Qed.

(** X4: the waiting time counts down with the clock. When the deque of the
    key is not longer than [max_requests] and the clock does not go back,
    two [time_until_next_allowed] calls in a row, the first answering [d1]
    at the reading [now1] and the second [d2] at [now2], satisfy
    [d2 = max 0 (d1 - (now2 - now1))]. *)
Theorem wait_counts_down (time : nat -> Z) (k : string) (w : world) :
  Z.of_nat (length (deque_of k w)) <= max_requests (self w) ->
  time (clock_reads w) <= time (S (clock_reads w)) ->
  exists (d1 d2 : Z) (w1 w2 : world),
    time_until_next_allowed time k w = (Returned d1, w1)
    /\ time_until_next_allowed time k w1 = (Returned d2, w2)
    /\ d2 = Z.max 0 (d1 - (time (S (clock_reads w)) - time (clock_reads w))).
Proof.
  intros Hlen Hle. rewrite time_until_next_allowed_eq.
  eexists _, _, _, _. split; [reflexivity|].
  rewrite time_until_next_allowed_eq. split; [reflexivity|].
  rewrite time_until_twice, after_eviction_entry. cbn [after_eviction self
    clock_reads window_size max_requests].
  apply wait_time_countdown; assumption.
Qed.

(** X5: the waiting time is exact. Under the same conditions, after
    [time_until_next_allowed] has answered [d] at the reading [now], the
    [record_message] that follows is admitted iff it reads the clock at
    [now + d] or later. *)
Theorem wait_is_exact (time : nat -> Z) (k : string) (w : world) :
  Z.of_nat (length (deque_of k w)) <= max_requests (self w) ->
  time (clock_reads w) <= time (S (clock_reads w)) ->
  exists (d : Z) (w1 : world),
    time_until_next_allowed time k w = (Returned d, w1)
    /\ (fst (record_message time k w1) = Returned true
        <-> time (clock_reads w) + d <= time (S (clock_reads w))).
Proof.
  intros Hlen Hle. rewrite time_until_next_allowed_eq.
  eexists _, _. split; [reflexivity|].
  rewrite record_message_eq.
  pose proof (wait_zero_iff_admissible time k (after_eviction time k w)) as Hz.
  cbv zeta in Hz. rewrite time_until_twice in Hz.
  rewrite time_until_twice, after_eviction_entry.
  cbn [after_eviction self clock_reads window_size max_requests] in *.
  rewrite wait_time_countdown in Hz by assumption.
  destruct (admissible _ _ _ _).
  - cbn [fst]. split; [intros _ | reflexivity].
    destruct Hz as [_ Hz]. specialize (Hz eq_refl). lia.
  - cbn [fst]. split; [discriminate|]. intros Hd.
    destruct Hz as [Hz _]. assert (false = true) as Habs by (apply Hz; lia).
    discriminate Habs.
Qed.

Lemma busy_world_in_policy :
  Z.of_nat (length (deque_of "u1" busy_world)) <= max_requests (self busy_world).
Proof. vm_compute. discriminate. Qed.

Lemma wait_counts_down_witness :
  Z.of_nat (length (deque_of "u1" busy_world)) <= max_requests (self busy_world)
  /\ ticking_clock (clock_reads busy_world)
     <= ticking_clock (S (clock_reads busy_world))
  /\ fst (time_until_next_allowed ticking_clock "u1"
            (snd (time_until_next_allowed ticking_clock "u1" busy_world)))
     = Returned 8.
Proof.
  assert (ticking_clock (clock_reads busy_world)
          <= ticking_clock (S (clock_reads busy_world))) as Hle
    by (vm_compute; discriminate).
  split; [exact busy_world_in_policy|]. split; [exact Hle|].
  destruct (wait_counts_down ticking_clock "u1" busy_world
              busy_world_in_policy Hle)
    as (d1 & d2 & w1 & w2 & H1 & H2 & Hd).
  assert (d1 = 9) as Hd1.
  { pose proof H1 as H1'. vm_compute in H1'. congruence. }
  rewrite H1. cbn [snd]. rewrite H2. cbn [fst]. f_equal.
  rewrite Hd, Hd1. vm_compute. reflexivity.
Defined.

Lemma idle_world_in_policy :
  Z.of_nat (length (deque_of "u1" idle_world)) <= max_requests (self idle_world).
Proof. vm_compute. discriminate. Qed.

Lemma wait_is_exact_witness :
  Z.of_nat (length (deque_of "u1" idle_world)) <= max_requests (self idle_world)
  /\ slow_clock (clock_reads idle_world) <= slow_clock (S (clock_reads idle_world))
  /\ fst (record_message slow_clock "u1"
            (snd (time_until_next_allowed slow_clock "u1" idle_world)))
     = Returned true.
Proof.
  assert (slow_clock (clock_reads idle_world)
          <= slow_clock (S (clock_reads idle_world))) as Hle
    by (vm_compute; discriminate).
  split; [exact idle_world_in_policy|]. split; [exact Hle|].
  destruct (wait_is_exact slow_clock "u1" idle_world idle_world_in_policy Hle)
    as (d & w1 & H1 & Hiff).
  assert (d = 0) as Hd.
  { pose proof H1 as H1'. vm_compute in H1'. congruence. }
  rewrite H1. cbn [snd]. apply Hiff. rewrite Hd. vm_compute. discriminate.
Defined.

(** ** What the queries never do *)

Lemma do_call_no_append (time : nat -> Z) (c : call) (w : world) :
  no_append time c w ->
  snd (do_call time c w) = after_eviction time (key_of c) w.
Proof.
  intros Hno. unfold no_append in Hno. revert Hno.
  rewrite !do_call_eq. cbv zeta.
  destruct c as [k|k|k]; cbn [key_of fst snd]; try reflexivity.
  destruct (admissible _ _ _ _); cbn [fst snd]; [discriminate | reflexivity].
Qed.

(** X6: [can_send_message], [time_until_next_allowed] and a refused
    [record_message] add nothing: for every key, the deque they leave is an
    end part of the deque they found, a key that was not in the dictionary
    is not in it afterwards, the policy is the same, and the clock has been
    read once. *)
Theorem queries_only_evict (time : nat -> Z) (c : call) (w : world) (j : string) :
  no_append time c w ->
  let w' := snd (do_call time c w) in
  deque_of j w' `suffix_of` deque_of j w
  /\ (user_messages (self w) !! j = None -> user_messages (self w') !! j = None)
  /\ window_size (self w') = window_size (self w)
  /\ max_requests (self w') = max_requests (self w)
  /\ clock_reads w' = S (clock_reads w).
Proof.
  intros Hno w'. subst w'. rewrite (do_call_no_append time c w Hno).
  split; [|split; [|repeat split]].
  - destruct (decide (key_of c = j)) as [<-|Hne].
    + rewrite after_eviction_deque.
      destruct (popleft_while_split (window_size (self w)) (time (clock_reads w))
                  (deque_of (key_of c) w)) as (gone & Hq & _).
      exists gone. exact Hq.
    + unfold deque_of. rewrite after_eviction_other by exact Hne. reflexivity.
  - intros Hnone. destruct (decide (key_of c = j)) as [<-|Hne].
    + rewrite after_eviction_entry. unfold deque_of. rewrite Hnone. reflexivity.
    + rewrite after_eviction_other by exact Hne. exact Hnone.
Qed.

Lemma queries_only_evict_witness :
  no_append ticking_clock (RecordMessage "u1") busy_world
  /\ deque_of "u1" (snd (do_call ticking_clock (RecordMessage "u1") busy_world))
     `suffix_of` [1].
Proof.
  assert (no_append ticking_clock (RecordMessage "u1") busy_world) as Hno
    by (vm_compute; reflexivity).
  split; [exact Hno|].
  destruct (queries_only_evict ticking_clock (RecordMessage "u1") busy_world
              "u1" Hno) as [Hsuffix _].
  exact Hsuffix.
Defined.

(** ** Check, then record *)

Lemma room_after_can_send (time : nat -> Z) (k : string) (w : world) :
  fst (can_send_message time k w) = Returned true ->
  room k (snd (can_send_message time k w)).
Proof.
  rewrite can_send_message_eq. cbn [fst snd].
  rewrite admissible_after_eviction. unfold room, deque_of.
  destruct (user_messages (self (after_eviction time k w)) !! k) as [q|];
    [|left; reflexivity].
  intros H. injection H as H. apply Z.ltb_lt in H. right. exact H.
Qed.

Lemma room_do_call (time : nat -> Z) (k : string) (c : call) (w : world) :
  ~ is_record_on k c -> room k w -> room k (snd (do_call time c w)).
Proof.
  intros Hc Hroom. destruct (decide (key_of c = k)) as [Hk|Hne].
  - assert (no_append time c w) as Hno.
    { destruct c as [k'|k'|k']; cbn in *; try exact I. contradiction. }
    rewrite (do_call_no_append time c w Hno), Hk.
    unfold room. rewrite after_eviction_deque, after_eviction_entry.
    pose proof (popleft_while_shorter (window_size (self w))
                  (time (clock_reads w)) (deque_of k w)) as Hshort.
    destruct Hroom as [Hnone | Hlen].
    + left. unfold deque_of. rewrite Hnone. reflexivity.
    + right. cbn [after_eviction self max_requests]. lia.
  - destruct (do_call_policy time c w) as [_ Hmr].
    unfold room, deque_of in *. rewrite do_call_other by exact Hne.
    rewrite Hmr. exact Hroom.
Qed.

Lemma room_record_message (time : nat -> Z) (k : string) (w : world) :
  room k w -> fst (record_message time k w) = Returned true.
Proof.
  intros Hroom. rewrite record_message_eq, admissible_after_eviction.
  rewrite after_eviction_entry.
  pose proof (popleft_while_shorter (window_size (self w))
                (time (clock_reads w)) (deque_of k w)) as Hshort.
  destruct (popleft_while _ _ _) as [|t r] eqn:E; [reflexivity|].
  cbn [kept].
  assert ((Z.of_nat (length (t :: r)) <? max_requests (self w)) = true) as ->;
    [|reflexivity].
  apply Z.ltb_lt. destruct Hroom as [Hnone | Hlen]; [|lia].
  unfold deque_of in E. rewrite Hnone in E. discriminate E.
Qed.

(** X7: when [can_send_message] answers [True] for a key, the next
    [record_message] of that key is admitted, whatever the clock reads and
    whatever calls come in between, as long as none of them is a
    [record_message] of the same key. *)
Theorem can_send_then_record
    (time : nat -> Z) (k : string) (mid : list call) (w : world) :
  fst (can_send_message time k w) = Returned true ->
  Forall (fun c => ~ is_record_on k c) mid ->
  fst (record_message time k (run time mid (snd (can_send_message time k w))))
  = Returned true.
Proof.
  intros Hcan Hmid. apply room_record_message.
  pose proof (room_after_can_send time k w Hcan) as Hroom.
  revert Hroom. generalize (snd (can_send_message time k w)).
  induction Hmid as [|c mid Hc _ IH]; intros w1 Hroom; [exact Hroom|].
  cbn [run]. apply IH, room_do_call; assumption.
Qed.

Lemma can_send_then_record_witness :
  fst (can_send_message slow_clock "u1" idle_world) = Returned true
  /\ Forall (fun c => ~ is_record_on "u1" c)
       [TimeUntil "u1"; RecordMessage "u2"; CanSend "u1"]
  /\ fst (record_message slow_clock "u1"
            (run slow_clock [TimeUntil "u1"; RecordMessage "u2"; CanSend "u1"]
               (snd (can_send_message slow_clock "u1" idle_world))))
     = Returned true.
Proof.
  assert (fst (can_send_message slow_clock "u1" idle_world) = Returned true)
    as Hcan by (vm_compute; reflexivity).
  assert (Forall (fun c => ~ is_record_on "u1" c)
            [TimeUntil "u1"; RecordMessage "u2"; CanSend "u1"]) as Hmid.
  { repeat constructor; cbn; try tauto. discriminate. }
  split; [exact Hcan|]. split; [exact Hmid|].
  apply (can_send_then_record slow_clock "u1" _ idle_world Hcan Hmid).
Defined.

(** ** Policies that [__init__] accepts although they are not positive *)

Lemma admissible_at_most_one (ws mr now : Z) (entry : option (list Z)) :
  mr <= 1 -> entry <> Some [] ->
  admissible ws mr now entry = admissible ws 1 now entry
  /\ wait_time ws mr now entry = wait_time ws 1 now entry.
Proof.
  intros Hmr Hne. destruct entry as [[|t r]|]; [congruence | | split; reflexivity].
  cbn [admissible wait_time].
  assert ((Z.of_nat (length (t :: r)) <? mr) = false) as ->
    by (apply Z.ltb_ge; cbn [length]; lia).
  assert ((Z.of_nat (length (t :: r)) <? 1) = false) as ->
    by (apply Z.ltb_ge; cbn [length]; lia).
  split; reflexivity.
Qed.

Lemma do_call_at_most_one
    (time : nat -> Z) (c : call) (ws mr : Z) (m : gmap string (list Z)) (n : nat) :
  mr <= 1 ->
  exists (a : answer) (m' : gmap string (list Z)) (n' : nat),
    do_call time c (World (Limiter ws mr m) n) = (a, World (Limiter ws mr m') n')
    /\ do_call time c (World (Limiter ws 1 m) n) = (a, World (Limiter ws 1 m') n').
Proof.
  intros Hmr. rewrite !do_call_eq. cbv zeta.
  cbn [self window_size max_requests clock_reads after_eviction user_messages].
  pose proof (evicted_not_empty ws (time n) (key_of c) m) as Hne.
  destruct (admissible_at_most_one ws mr (time n)
              (evicted ws (time n) (key_of c) m !! key_of c) Hmr Hne)
    as [Hadm Hwait].
  rewrite Hadm, Hwait.
  destruct c as [k|k|k]; cbn [key_of].
  - eexists _, _, _. split; reflexivity.
  - destruct (admissible ws 1 _ _); eexists _, _, _; split; reflexivity.
  - eexists _, _, _. split; reflexivity.
Qed.

(** X8: a [max_requests] of 0 or less is taken as 1. [__init__] accepts
    it, and then every sequence of calls gets the answers it gets from the
    limiter with the same window, the same dictionary and
    [max_requests = 1]: the first message of a key is always admitted, and a
    key that has an entry left is always refused. *)
Theorem max_requests_below_one_is_one
    (time : nat -> Z) (cs : list call) (ws mr : Z)
    (m : gmap string (list Z)) (n : nat) :
  mr <= 1 ->
  answers time cs (World (Limiter ws mr m) n)
  = answers time cs (World (Limiter ws 1 m) n).
Proof.
  intros Hmr. revert m n. induction cs as [|c cs IH]; intros m n; [reflexivity|].
  destruct (do_call_at_most_one time c ws mr m n Hmr) as (a & m' & n' & H1 & H2).
  cbn [answers]. rewrite H1, H2. cbn [fst snd]. f_equal. apply IH.
Qed.

Lemma max_requests_below_one_is_one_witness :
  -3 <= 1
  /\ answers ticking_clock
       [RecordMessage "u1"; RecordMessage "u1"; TimeUntil "u1"] (fresh 10 (-3))
     = [ABool true; ABool false; ATime 8].
Proof.
  assert (-3 <= 1) as Hmr by lia. split; [exact Hmr|].
  unfold fresh.
  rewrite (max_requests_below_one_is_one ticking_clock _ 10 (-3) ∅ 0 Hmr).
  vm_compute. reflexivity.
Defined.

Lemma popleft_while_all_expired (ws now : Z) (q : list Z) :
  Forall (expired ws now) q -> popleft_while ws now q = [].
Proof.
  induction 1 as [|t q Ht _ IH]; [reflexivity|]. cbn.
  assert ((now - t >=? ws) = true) as -> by (apply Z.geb_le; unfold expired in Ht; lia).
  exact IH.
Qed.

Section NoWindow.

Variable time : nat -> Z.
Hypothesis time_monotone : monotone time.

Lemma no_window_do_call (c : call) (w : world) :
  window_size (self w) <= 0 -> not_ahead time w ->
  fst (do_call time c w) = unlimited c
  /\ window_size (self (snd (do_call time c w))) <= 0
  /\ not_ahead time (snd (do_call time c w)).
Proof.
  intros Hws Hw.
  assert (user_messages (self (after_eviction time (key_of c) w)) !! key_of c
          = None) as Hentry.
  { rewrite after_eviction_entry, popleft_while_all_expired; [reflexivity|].
    eapply Forall_impl; [apply (Hw (key_of c))|]. cbn. unfold expired.
    intros t Ht. lia. }
  assert (forall w' : world,
            (forall j, key_of c <> j ->
                       user_messages (self w') !! j = user_messages (self w) !! j) ->
            Forall (fun t => t <= time (clock_reads w')) (deque_of (key_of c) w') ->
            (clock_reads w <= clock_reads w')%nat ->
            not_ahead time w') as Hnext.
  { intros w' Hother Hkey Hn j. destruct (decide (key_of c = j)) as [<-|Hne];
      [exact Hkey|].
    unfold deque_of. rewrite (Hother j Hne). fold (deque_of j w).
    eapply Forall_impl; [apply (Hw j)|]. cbn. intros t Ht.
    etrans; [exact Ht|]. apply time_monotone, Hn. }
  assert (not_ahead time (after_eviction time (key_of c) w)) as Hw1.
  { apply Hnext.
    - intros j Hne. apply after_eviction_other, Hne.
    - unfold deque_of. rewrite Hentry. constructor.
    - cbn. lia. }
  rewrite do_call_eq. cbv zeta. rewrite Hentry.
  destruct c as [k|k|k]; cbn [key_of fst snd admissible wait_time unlimited] in *;
    try (split; [reflexivity | split; [exact Hws | exact Hw1]]).
  split; [reflexivity|]. split; [exact Hws|].
  apply Hnext.
  - intros j Hne. rewrite after_append_other by exact Hne.
    apply after_eviction_other, Hne.
  - rewrite after_append_deque. unfold deque_of at 1. rewrite Hentry.
    repeat constructor. cbn. apply time_monotone. lia.
  - cbn. lia.
Qed.

Lemma no_window_answers (cs : list call) (w : world) :
  window_size (self w) <= 0 -> not_ahead time w ->
  answers time cs w = map unlimited cs.
Proof.
  revert w. induction cs as [|c cs IH]; intros w Hws Hw; [reflexivity|].
  destruct (no_window_do_call c w Hws Hw) as (Hans & Hws' & Hw').
  cbn [answers map]. rewrite Hans. f_equal. apply IH; assumption.
Qed.

End NoWindow.

(** X9: a [window_size] of 0 or less limits nothing. [__init__] accepts
    it, and then, with a clock that never goes back, every
    [can_send_message] and every [record_message] on the new limiter
    answers [True] and every [time_until_next_allowed] answers 0, whatever
    [max_requests] is. *)
Theorem window_below_zero_limits_nothing
    (time : nat -> Z) (cs : list call) (ws mr : Z) :
  monotone time -> ws <= 0 ->
  answers time cs (fresh ws mr) = map unlimited cs.
Proof.
  intros Hmono Hws. apply no_window_answers; [exact Hmono | exact Hws |].
  intros j. unfold deque_of, fresh. cbn. rewrite lookup_empty. constructor.
Qed.

Lemma window_below_zero_limits_nothing_witness :
  monotone ticking_clock /\ 0 <= 0
  /\ answers ticking_clock
       [RecordMessage "u1"; RecordMessage "u1"; CanSend "u1"; TimeUntil "u1"]
       (fresh 0 1)
     = [ABool true; ABool true; ABool true; ATime 0].
Proof.
  assert (0 <= 0) as Hws by lia.
  split; [exact ticking_clock_monotone|]. split; [exact Hws|].
  rewrite (window_below_zero_limits_nothing ticking_clock _ 0 1
             ticking_clock_monotone Hws).
  reflexivity.
Defined.

(** ** The shape of the deques *)

(** X10: on a limiter that allows at least one request, with a clock that
    never goes back, after any sequence of calls the deque of every key is
    in ascending time order, holds no timestamp later than the next clock
    reading, and has at most [max_requests] entries. *)
Theorem deques_stay_well_formed
    (time : nat -> Z) (ws mr : Z) (cs : list call) (k : string) :
  monotone time -> 1 <= mr ->
  let w := run time cs (fresh ws mr) in
  StronglySorted Z.le (deque_of k w)
  /\ Forall (fun t => t <= time (clock_reads w)) (deque_of k w)
  /\ Z.of_nat (length (deque_of k w)) <= mr.
Proof.
  intros Hmono Hmr w.
  assert (max_requests (self w) = mr) as Hpol.
  { subst w. apply (run_invariant time (fun w => max_requests (self w) = mr));
      [|reflexivity].
    intros c w0 <-. apply do_call_policy. }
  pose proof (reachable_well_formed time Hmono ws mr cs k Hmr) as Hwf.
  fold w in Hwf. unfold well_formed in Hwf. rewrite Hpol in Hwf. exact Hwf.
Qed.

Lemma deques_stay_well_formed_witness :
  monotone ticking_clock /\ 1 <= 2
  /\ Z.of_nat (length (deque_of "u1"
        (run ticking_clock (replicate 5 (RecordMessage "u1")) (fresh 10 2))))
     <= 2.
Proof.
  assert (1 <= 2) as Hmr by lia.
  split; [exact ticking_clock_monotone|]. split; [exact Hmr|].
  destruct (deques_stay_well_formed ticking_clock 10 2
              (replicate 5 (RecordMessage "u1")) "u1"
              ticking_clock_monotone Hmr) as (_ & _ & Hlen).
  exact Hlen.
Defined.

(** ** Bursts *)

Lemma burst_from (time : nat -> Z) (k : string) (n : nat) (w : world) :
  Z.of_nat (length (deque_of k w)) + Z.of_nat n <= max_requests (self w) ->
  answers time (replicate n (RecordMessage k)) w = replicate n (ABool true).
Proof.
  revert w. induction n as [|n IH]; intros w Hlen; [reflexivity|].
  pose proof (popleft_while_shorter (window_size (self w))
                (time (clock_reads w)) (deque_of k w)) as Hshort.
  assert (admissible (window_size (self w)) (max_requests (self w))
            (time (clock_reads w))
            (user_messages (self (after_eviction time k w)) !! k) = true) as Hadm.
  { rewrite admissible_after_eviction, after_eviction_entry.
    destruct (popleft_while _ _ _) as [|t r]; [reflexivity|]. cbn [kept].
    apply Z.ltb_lt. lia. }
  cbn [replicate answers]. rewrite do_call_eq. cbv zeta. cbn [key_of].
  rewrite Hadm. cbn [fst snd]. f_equal. apply IH.
  rewrite after_append_deque, length_app, after_eviction_deque.
  cbn [length after_append after_eviction self max_requests]. lia.
Qed.

(** X11: a burst within the limit is admitted whole. On a new limiter the
    first [max_requests] [record_message] calls of a key all answer [True],
    however close in time they are and whatever the clock reads. *)
Theorem burst_within_limit_is_admitted
    (time : nat -> Z) (ws mr : Z) (k : string) (n : nat) :
  Z.of_nat n <= mr ->
  answers time (replicate n (RecordMessage k)) (fresh ws mr)
  = replicate n (ABool true).
Proof.
  intros Hn. apply burst_from. unfold deque_of, fresh. cbn.
  rewrite lookup_empty. cbn. lia.
Qed.

Lemma burst_within_limit_is_admitted_witness :
  Z.of_nat 3 <= 3
  /\ answers (clock_of []) (replicate 3 (RecordMessage "u1")) (fresh 10 3)
     = [ABool true; ABool true; ABool true].
Proof.
  assert (Z.of_nat 3 <= 3) as Hn by (cbn; lia). split; [exact Hn|].
  rewrite (burst_within_limit_is_admitted (clock_of []) 10 3 "u1" 3 Hn).
  reflexivity.
Defined.

(** ** The keys of the dictionary *)

Lemma do_call_new_key (time : nat -> Z) (c : call) (w : world) (j : string) :
  is_Some (user_messages (self (snd (do_call time c w))) !! j) ->
  is_Some (user_messages (self w) !! j) \/ c = RecordMessage j.
Proof.
  destruct (decide (key_of c = j)) as [Hk|Hne].
  - destruct c as [k|k|k]; cbn [key_of] in Hk; subst k;
      [| right; reflexivity |];
      rewrite do_call_eq; cbv zeta; cbn [key_of snd];
      rewrite after_eviction_entry; unfold deque_of;
      (destruct (user_messages (self w) !! j);
       [intros _; left; eauto | cbn; intros [x Hx]; discriminate Hx]).
  - rewrite do_call_other by exact Hne. intros H. left. exact H.
Qed.

Lemma run_new_key (time : nat -> Z) (cs : list call) (w : world) (j : string) :
  is_Some (user_messages (self (run time cs w)) !! j) ->
  is_Some (user_messages (self w) !! j) \/ j ∈ recorded_keys cs.
Proof.
  revert w. induction cs as [|c cs IH]; intros w H; [left; exact H|].
  cbn [run] in H. destruct (IH _ H) as [Hsome | Hin].
  - destruct (do_call_new_key time c w j Hsome) as [Hw | ->]; [left; exact Hw|].
    right. cbn. apply list_elem_of_here.
  - right. cbn [recorded_keys flat_map]. apply elem_of_app. right. exact Hin.
Qed.

(** X12: queries create no entry. After any sequence of calls on a new
    limiter, every key of the dictionary is the key of a [record_message]
    call of the sequence: [can_send_message] and [time_until_next_allowed]
    of a key that never recorded a message leave no trace of it. *)
Theorem keys_come_from_records
    (time : nat -> Z) (cs : list call) (ws mr : Z) (j : string) :
  is_Some (user_messages (self (run time cs (fresh ws mr))) !! j) ->
  j ∈ recorded_keys cs.
Proof.
  intros H. destruct (run_new_key time cs (fresh ws mr) j H) as [Hsome | Hin];
    [|exact Hin].
  unfold fresh in Hsome. cbn in Hsome. rewrite lookup_empty in Hsome.
  destruct Hsome as [x Hx]. discriminate Hx.
Qed.

Lemma keys_come_from_records_witness :
  is_Some (user_messages (self (run ticking_clock
             [CanSend "u2"; RecordMessage "u1"; TimeUntil "u3"] (fresh 10 1)))
           !! "u1")
  /\ "u1" ∈ recorded_keys [CanSend "u2"; RecordMessage "u1"; TimeUntil "u3"].
Proof.
  assert (is_Some (user_messages (self (run ticking_clock
             [CanSend "u2"; RecordMessage "u1"; TimeUntil "u3"] (fresh 10 1)))
           !! "u1")) as Hsome.
  { exists [2]. vm_compute. reflexivity. }
  split; [exact Hsome|].
  apply (keys_come_from_records ticking_clock _ 10 1 "u1" Hsome).
Defined.

(** ** A key that is not in the dictionary *)

Lemma after_eviction_missing (time : nat -> Z) (k : string) (w : world) :
  user_messages (self w) !! k = None ->
  after_eviction time k w = World (self w) (S (clock_reads w)).
Proof.
  intros Hnone. destruct w as [[ws mr m] n]. unfold after_eviction, evicted.
  cbn in *. rewrite Hnone. reflexivity.
Qed.

(** X13: a key that is not in the dictionary is no error. For such a key
    [can_send_message] answers [True] and [time_until_next_allowed] answers
    0, both leaving the limiter as it is, and [record_message] answers
    [True] and stores the key with its second clock reading as only
    timestamp, whatever the policy is. *)
Theorem missing_key_is_no_error (time : nat -> Z) (k : string) (w : world) :
  user_messages (self w) !! k = None ->
  can_send_message time k w = (Returned true, World (self w) (S (clock_reads w)))
  /\ time_until_next_allowed time k w
     = (Returned 0, World (self w) (S (clock_reads w)))
  /\ record_message time k w
     = (Returned true,
        World (Limiter (window_size (self w)) (max_requests (self w))
                 (<[k := [time (S (clock_reads w))]]> (user_messages (self w))))
              (S (S (clock_reads w)))).
Proof.
  intros Hnone.
  rewrite can_send_message_eq, time_until_next_allowed_eq, record_message_eq.
  rewrite (after_eviction_missing time k w Hnone). cbn [self]. rewrite Hnone.
  cbn [admissible wait_time]. repeat split.
  unfold after_append, deque_of. cbn. rewrite Hnone. reflexivity.
Qed.

Lemma missing_key_is_no_error_witness :
  user_messages (self idle_world) !! "u2" = None
  /\ fst (record_message slow_clock "u2" idle_world) = Returned true
  /\ user_messages (self (snd (record_message slow_clock "u2" idle_world)))
       !! "u2" = Some [30].
Proof.
  assert (user_messages (self idle_world) !! "u2" = None) as Hnone
    by (vm_compute; reflexivity).
  split; [exact Hnone|].
  destruct (missing_key_is_no_error slow_clock "u2" idle_world Hnone)
    as (_ & _ & Hrec).
  rewrite Hrec. split; [reflexivity|]. cbn. rewrite lookup_insert_eq.
  vm_compute. reflexivity.
Defined.

(** ** One request per window: [record_message], then the waiting time *)

Lemma wait_time_single (ws now t : Z) :
  wait_time ws 1 now (kept (popleft_while ws now [t])) = Z.max 0 ((t + ws) - now).
Proof.
  cbn [popleft_while]. destruct (now - t >=? ws) eqn:E.
  - apply Z.geb_le in E. cbn. lia.
  - cbn. reflexivity.
Qed.

(** X14: with [max_requests = 1], the policy by default and the one of the
    demonstration, [record_message] followed by [time_until_next_allowed]
    on the same key gives this. If the message was admitted, the waiting
    time is [max 0 (stamp + window_size - now)] for the timestamp just
    appended. If it was refused, the deque held one timestamp, younger than
    the window at the check, and the waiting time is
    [max 0 (oldest + window_size - now)] for that one. [now] is the reading
    of [time_until_next_allowed]. *)
Theorem single_slot_record_then_wait (time : nat -> Z) (k : string) (w : world) :
  max_requests (self w) = 1 ->
  (length (deque_of k w) <= 1)%nat ->
  let ws := window_size (self w) in
  let n := clock_reads w in
  exists (b : bool) (w1 : world) (d : Z) (w2 : world),
    record_message time k w = (Returned b, w1)
    /\ time_until_next_allowed time k w1 = (Returned d, w2)
    /\ (b = true ->
        d = Z.max 0 ((time (S n) + ws) - time (S (S n))))
    /\ (b = false ->
        exists oldest,
          deque_of k w = [oldest]
          /\ time n - oldest < ws
          /\ d = Z.max 0 ((oldest + ws) - time (S n))).
Proof.
  intros Hmr Hlen ws n. subst ws n. rewrite record_message_eq.
  rewrite admissible_after_eviction, after_eviction_entry, Hmr.
  pose proof (popleft_while_split (window_size (self w)) (time (clock_reads w))
                (deque_of k w)) as (gone & Hsplit & _).
  pose proof (popleft_while_head (window_size (self w)) (time (clock_reads w))
                (deque_of k w)) as Hhead.
  destruct (popleft_while (window_size (self w)) (time (clock_reads w))
              (deque_of k w)) as [|oldest rest] eqn:Hleft.
  - cbn [kept]. eexists _, _, _, _. split; [reflexivity|].
    rewrite time_until_next_allowed_eq. split; [reflexivity|].
    split; [|discriminate]. intros _.
    rewrite after_eviction_entry, after_append_deque, after_eviction_deque, Hleft.
    cbn [after_append after_eviction self window_size max_requests clock_reads
         app].
    rewrite Hmr. apply wait_time_single.
  - cbn [kept].
    assert ((Z.of_nat (length (oldest :: rest)) <? 1) = false) as ->
      by (apply Z.ltb_ge; cbn [length]; lia).
    eexists _, _, _, _. split; [reflexivity|].
    rewrite time_until_next_allowed_eq. split; [reflexivity|].
    split; [discriminate|]. intros _.
    assert (deque_of k w = [oldest]) as Hq.
    { rewrite Hsplit in Hlen |- *. rewrite length_app in Hlen. cbn [length] in Hlen.
      destruct gone; [|cbn in Hlen; lia]. destruct rest; [|cbn in Hlen; lia].
      reflexivity. }
    exists oldest. split; [exact Hq|]. split.
    + specialize (Hhead oldest rest eq_refl).
      rewrite Z.geb_leb in Hhead. apply Z.leb_gt in Hhead. exact Hhead.
    + rewrite after_eviction_entry, after_eviction_deque, Hleft.
      rewrite Hq in Hsplit. destruct gone; [|destruct gone; discriminate].
      cbn [app] in Hsplit. injection Hsplit as <-.
      cbn [after_eviction self window_size max_requests clock_reads].
      rewrite Hmr. apply wait_time_single.
Qed.

Lemma single_slot_record_then_wait_witness :
  max_requests (self busy_world) = 1
  /\ (length (deque_of "u1" busy_world) <= 1)%nat
  /\ fst (record_message ticking_clock "u1" busy_world) = Returned false
  /\ fst (time_until_next_allowed ticking_clock "u1"
            (snd (record_message ticking_clock "u1" busy_world)))
     = Returned 8.
Proof.
  assert (max_requests (self busy_world) = 1) as Hmr by reflexivity.
  assert (length (deque_of "u1" busy_world) <= 1)%nat as Hlen
    by (vm_compute; reflexivity).
  split; [exact Hmr|]. split; [exact Hlen|].
  destruct (single_slot_record_then_wait ticking_clock "u1" busy_world Hmr Hlen)
    as (b & w1 & d & w2 & Hrec & Hwait & _ & Hfalse).
  assert (b = false) as Hb.
  { pose proof Hrec as Hrec'. vm_compute in Hrec'. congruence. }
  rewrite Hrec. cbn [fst snd]. rewrite Hwait. cbn [fst].
  destruct (Hfalse Hb) as (oldest & Hq & _ & Hd).
  assert (oldest = 1) as Ho.
  { pose proof Hq as Hq'. vm_compute in Hq'. congruence. }
  rewrite Hb, Hd, Ho. split; reflexivity.
Defined.

(** * The demonstration *)

Lemma demo_message_eq (time : nat -> Z) (i : Z) (w : world) :
  demo_message time i w
  = match record_message time (str (i mod 5 + 1)) w with
    | (Returned b, w1) =>
        match time_until_next_allowed time (str (i mod 5 + 1)) w1 with
        | (Returned d, w2) =>
            (Returned (Line i (i mod 5 + 1) (if b then None else Some d)), w2)
        | (Raised e, w2) => (Raised e, w2)
        end
    | (Raised e, w1) => (Raised e, w1)
    end.
Proof.
  unfold demo_message, bind, time_sleep, ret.
  destruct (record_message time (str (i mod 5 + 1)) w) as [[b|e] w1];
    [|reflexivity].
  destruct (time_until_next_allowed time (str (i mod 5 + 1)) w1) as [[d|e] w2];
    reflexivity.
Qed.

Lemma for_each_cons {A : Type} (body : Z -> M A) (i : Z) (ids : list Z) (w : world) :
  for_each body (i :: ids) w
  = match body i w with
    | (Returned x, w1) =>
        match for_each body ids w1 with
        | (Returned xs, w2) => (Returned (x :: xs), w2)
        | (Raised e, w2) => (Raised e, w2)
        end
    | (Raised e, w1) => (Raised e, w1)
    end.
Proof.
  cbn [for_each]. unfold bind, ret.
  destruct (body i w) as [[x|e] w1]; [|reflexivity].
  destruct (for_each body ids w1) as [[xs|e] w2]; reflexivity.
Qed.

Lemma for_each_app {A : Type} (body : Z -> M A) (ids1 ids2 : list Z) (w : world) :
  for_each body (ids1 ++ ids2) w
  = match for_each body ids1 w with
    | (Returned xs, w1) =>
        match for_each body ids2 w1 with
        | (Returned ys, w2) => (Returned (xs ++ ys), w2)
        | (Raised e, w2) => (Raised e, w2)
        end
    | (Raised e, w1) => (Raised e, w1)
    end.
Proof.
  revert w. induction ids1 as [|i ids1 IH]; intros w.
  - cbn [app for_each]. unfold ret at 1.
    destruct (for_each body ids2 w) as [[ys|e] w2]; reflexivity.
  - cbn [app]. rewrite !for_each_cons.
    destruct (body i w) as [[x|e] w1]; [|reflexivity].
    rewrite IH. destruct (for_each body ids1 w1) as [[xs|e] w2]; [|reflexivity].
    destruct (for_each body ids2 w2) as [[ys|e] w3]; reflexivity.
Qed.

(** One message of the demonstration never raises. *)
Lemma demo_message_returns (time : nat -> Z) (i : Z) (w : world) :
  exists (shown : option Z) (w' : world),
    demo_message time i w = (Returned (Line i (i mod 5 + 1) shown), w')
    /\ forall j, str (i mod 5 + 1) <> j ->
         user_messages (self w') !! j = user_messages (self w) !! j.
Proof.
  rewrite demo_message_eq, record_message_eq.
  set (k := str (i mod 5 + 1)).
  destruct (admissible _ _ _ _); rewrite time_until_next_allowed_eq;
    eexists _, _; (split; [reflexivity|]); intros j Hne.
  - rewrite after_eviction_other, after_append_other by exact Hne.
    apply after_eviction_other, Hne.
  - rewrite !after_eviction_other by exact Hne. reflexivity.
Qed.

(** The message of a user who is not in the dictionary gets the tick. *)
Lemma demo_message_new_user (time : nat -> Z) (i : Z) (w : world) :
  user_messages (self w) !! str (i mod 5 + 1) = None ->
  exists w' : world,
    demo_message time i w = (Returned (Line i (i mod 5 + 1) None), w')
    /\ forall j, str (i mod 5 + 1) <> j ->
         user_messages (self w') !! j = user_messages (self w) !! j.
Proof.
  intros Hnone. rewrite demo_message_eq, record_message_eq.
  set (k := str (i mod 5 + 1)) in *.
  rewrite (after_eviction_missing time k w Hnone). cbn [self]. rewrite Hnone.
  cbn [admissible]. rewrite time_until_next_allowed_eq.
  eexists. split; [reflexivity|]. intros j Hne.
  rewrite after_eviction_other, after_append_other by exact Hne. reflexivity.
Qed.

Lemma for_each_demo_returns (time : nat -> Z) (ids : list Z) (w : world) :
  exists (lines : list line) (w' : world),
    for_each (demo_message time) ids w = (Returned lines, w')
    /\ map line_message lines = ids
    /\ Forall (fun ln => line_user ln = line_message ln mod 5 + 1) lines.
Proof.
  revert w. induction ids as [|i ids IH]; intros w.
  - exists [], w. repeat split. constructor.
  - rewrite for_each_cons.
    destruct (demo_message_returns time i w) as (shown & w1 & -> & _).
    destruct (IH w1) as (lines & w2 & -> & Hids & Husers).
    eexists _, _. split; [reflexivity|]. split.
    + cbn. rewrite Hids. reflexivity.
    + constructor; [reflexivity | exact Husers].
Qed.

Lemma for_each_demo_new_users (time : nat -> Z) (ids : list Z) (w : world) :
  NoDup (map (fun i => str (i mod 5 + 1)) ids) ->
  (forall i, i ∈ ids -> user_messages (self w) !! str (i mod 5 + 1) = None) ->
  exists w' : world,
    for_each (demo_message time) ids w
    = (Returned (map (fun i => Line i (i mod 5 + 1) None) ids), w').
Proof.
  revert w. induction ids as [|i ids IH]; intros w Hdup Hnew.
  - exists w. reflexivity.
  - rewrite for_each_cons. cbn [map] in Hdup. apply NoDup_cons in Hdup as [Hi Hdup].
    destruct (demo_message_new_user time i w) as (w1 & -> & Hother).
    { apply Hnew. apply list_elem_of_here. }
    destruct (IH w1 Hdup) as (w2 & ->).
    { intros i' Hi'. rewrite Hother.
      - apply Hnew. apply list_elem_of_further, Hi'.
      - intros Heq. apply Hi. rewrite Heq.
        apply (list_elem_of_fmap_2 (fun i => str (i mod 5 + 1))), Hi'. }
    eexists. reflexivity.
Qed.

(** X15: the demonstration never raises and prints its twenty lines in the
    order of the messages, each for the user [message_id % 5 + 1]; whatever
    the clock reads, the first five messages, which come from five different
    users, get the tick. *)
Theorem demo_prints_twenty_lines (time : nat -> Z) :
  exists rest : list line,
    test_rate_limiter time
    = Returned (map (fun i => Line i (i mod 5 + 1) None) (range 1 6) ++ rest)
    /\ map line_message rest = range 6 21
    /\ Forall (fun ln => line_user ln = line_message ln mod 5 + 1) rest.
Proof.
  unfold test_rate_limiter, __init__.
  change (range 1 11) with (range 1 6 ++ range 6 11).
  unfold bind at 1. rewrite for_each_app.
  destruct (for_each_demo_new_users time (range 1 6)
              (World (Limiter 10 1 ∅) 0)) as (w1 & ->).
  { apply (bool_decide_unpack (NoDup (map (fun i => str (i mod 5 + 1)) (range 1 6)))).
    vm_compute. exact I. }
  { intros i _. cbn. apply lookup_empty. }
  destruct (for_each_demo_returns time (range 6 11) w1)
    as (lines2 & w2 & -> & Hids2 & Husers2).
  unfold bind, time_sleep, ret.
  destruct (for_each_demo_returns time (range 11 21) w2)
    as (lines3 & w3 & -> & Hids3 & Husers3).
  cbn [fst]. exists (lines2 ++ lines3).
  split; [rewrite <- app_assoc; reflexivity|]. split.
  - rewrite map_app, Hids2, Hids3. reflexivity.
  - apply Forall_app. split; assumption.
Qed.

Lemma evicted_young (ws now t : Z) (k : string) (m : gmap string (list Z)) :
  m !! k = Some [t] -> now - t < ws -> evicted ws now k m = m.
Proof.
  intros Hk Ht. apply (evicted_id ws now k m [t] Hk); [discriminate|].
  cbn. assert ((now - t >=? ws) = false) as ->; [|reflexivity].
  rewrite Z.geb_leb. apply Z.leb_gt. exact Ht.
Qed.

(** A message of a user who is not in the dictionary, when the pause before
    the waiting time is asked is shorter than the window. *)
Lemma demo_message_admitted
    (time : nat -> Z) (i : Z) (k : string) (ws mr : Z)
    (m : gmap string (list Z)) (n : nat) :
  str (i mod 5 + 1) = k ->
  m !! k = None ->
  time (S (S n)) - time (S n) < ws ->
  demo_message time i (World (Limiter ws mr m) n)
  = (Returned (Line i (i mod 5 + 1) None),
     World (Limiter ws mr (<[k := [time (S n)]]> m)) (S (S (S n)))).
Proof.
  intros Hk Hnone Hyoung. rewrite demo_message_eq, Hk, record_message_eq.
  rewrite (after_eviction_missing time k (World (Limiter ws mr m) n) Hnone).
  cbn [self user_messages].
  rewrite Hnone. cbn [admissible]. rewrite time_until_next_allowed_eq.
  unfold after_append, after_eviction, deque_of.
  cbn [self user_messages window_size max_requests clock_reads].
  rewrite Hnone. cbn [default app].
  rewrite (evicted_young ws (time (S (S n))) (time (S n)) k
             (<[k := [time (S n)]]> m) (lookup_insert_eq _ _ _) Hyoung).
  reflexivity.
Qed.

(** A message of a user whose one timestamp is younger than the window,
    under the policy of one request. *)
Lemma demo_message_refused
    (time : nat -> Z) (i : Z) (k : string) (ws t : Z)
    (m : gmap string (list Z)) (n : nat) :
  str (i mod 5 + 1) = k ->
  m !! k = Some [t] ->
  time n - t < ws ->
  time (S n) - t < ws ->
  demo_message time i (World (Limiter ws 1 m) n)
  = (Returned (Line i (i mod 5 + 1) (Some ((t + ws) - time (S n)))),
     World (Limiter ws 1 m) (S (S n))).
Proof.
  intros Hk Hentry Hcheck Hwait. rewrite demo_message_eq, Hk, record_message_eq.
  unfold after_eviction.
  cbn [self user_messages window_size max_requests clock_reads].
  rewrite !(evicted_young ws (time n) t k m Hentry Hcheck), Hentry.
  assert (admissible ws 1 (time n) (Some [t]) = false) as ->.
  { cbn. rewrite Z.geb_leb. apply Z.leb_gt. exact Hcheck. }
  rewrite time_until_next_allowed_eq. unfold after_eviction.
  cbn [self user_messages window_size max_requests clock_reads].
  rewrite (evicted_young ws (time (S n)) t k m Hentry Hwait), Hentry.
  assert (wait_time ws 1 (time (S n)) (Some [t]) = (t + ws) - time (S n)) as ->.
  { cbn. apply Z.max_r. lia. }
  reflexivity.
Qed.

(** X16: the first series of the demonstration. When the clock never goes
    back and, for each of the five users, fewer than 10 seconds pass between
    the timestamp of the first message and the moment the waiting time of
    the second is asked (five pauses of at most one second each), the
    messages 1 to 5 get the tick and the messages 6 to 10 are refused, each
    with the waiting time [timestamp + 10 - now]. *)
Theorem demo_first_series (time : nat -> Z) :
  monotone time ->
  time 16%nat - time 1%nat < 10 ->
  time 18%nat - time 4%nat < 10 ->
  time 20%nat - time 7%nat < 10 ->
  time 22%nat - time 10%nat < 10 ->
  time 24%nat - time 13%nat < 10 ->
  exists rest : list line,
    test_rate_limiter time
    = Returned
        ([Line 1 2 None; Line 2 3 None; Line 3 4 None; Line 4 5 None;
          Line 5 1 None;
          Line 6 2 (Some (time 1%nat + 10 - time 16%nat));
          Line 7 3 (Some (time 4%nat + 10 - time 18%nat));
          Line 8 4 (Some (time 7%nat + 10 - time 20%nat));
          Line 9 5 (Some (time 10%nat + 10 - time 22%nat));
          Line 10 1 (Some (time 13%nat + 10 - time 24%nat))] ++ rest)
    /\ map line_message rest = range 11 21.
Proof.
  intros Hmono H2 H3 H4 H5 H1.
  assert (forall i j : nat, (i <= j)%nat -> time i <= time j) as Hle
    by exact Hmono.
  pose proof (Hle 2%nat 16%nat ltac:(lia)). pose proof (Hle 15%nat 16%nat ltac:(lia)).
  pose proof (Hle 5%nat 18%nat ltac:(lia)). pose proof (Hle 17%nat 18%nat ltac:(lia)).
  pose proof (Hle 8%nat 20%nat ltac:(lia)). pose proof (Hle 19%nat 20%nat ltac:(lia)).
  pose proof (Hle 11%nat 22%nat ltac:(lia)). pose proof (Hle 21%nat 22%nat ltac:(lia)).
  pose proof (Hle 14%nat 24%nat ltac:(lia)). pose proof (Hle 23%nat 24%nat ltac:(lia)).
  unfold test_rate_limiter, __init__.
  change (range 1 11) with [1; 2; 3; 4; 5; 6; 7; 8; 9; 10].
  unfold bind at 1.
  rewrite for_each_cons.
  rewrite (demo_message_admitted time 1 "2" 10 1 _ 0 eq_refl) by
    (first [reflexivity | lia]).
  cbv beta iota.
  rewrite for_each_cons.
  rewrite (demo_message_admitted time 2 "3" 10 1 _ 3 eq_refl) by
    (first [reflexivity | lia]).
  cbv beta iota.
  rewrite for_each_cons.
  rewrite (demo_message_admitted time 3 "4" 10 1 _ 6 eq_refl) by
    (first [reflexivity | lia]).
  cbv beta iota.
  rewrite for_each_cons.
  rewrite (demo_message_admitted time 4 "5" 10 1 _ 9 eq_refl) by
    (first [reflexivity | lia]).
  cbv beta iota.
  rewrite for_each_cons.
  rewrite (demo_message_admitted time 5 "1" 10 1 _ 12 eq_refl) by
    (first [reflexivity | lia]).
  cbv beta iota.
  rewrite for_each_cons.
  rewrite (demo_message_refused time 6 "2" 10 (time 1%nat) _ 15 eq_refl) by
    (first [reflexivity | lia]).
  cbv beta iota.
  rewrite for_each_cons.
  rewrite (demo_message_refused time 7 "3" 10 (time 4%nat) _ 17 eq_refl) by
    (first [reflexivity | lia]).
  cbv beta iota.
  rewrite for_each_cons.
  rewrite (demo_message_refused time 8 "4" 10 (time 7%nat) _ 19 eq_refl) by
    (first [reflexivity | lia]).
  cbv beta iota.
  rewrite for_each_cons.
  rewrite (demo_message_refused time 9 "5" 10 (time 10%nat) _ 21 eq_refl) by
    (first [reflexivity | lia]).
  cbv beta iota.
  rewrite for_each_cons.
  rewrite (demo_message_refused time 10 "1" 10 (time 13%nat) _ 23 eq_refl) by
    (first [reflexivity | lia]).
  cbv beta iota.
  cbn [for_each]. unfold ret at 1. unfold bind, time_sleep, ret.
  match goal with
  | |- context [for_each (demo_message time) (range 11 21) ?w] =>
      destruct (for_each_demo_returns time (range 11 21) w)
        as (lines & w' & -> & Hids & _)
  end.
  cbn [fst]. exists lines. split; [reflexivity | exact Hids].
Qed.

Lemma third_clock_monotone : monotone third_clock.
Proof.
  intros i j Hij. unfold third_clock. apply Z.div_le_mono; lia.
Qed.

Lemma demo_first_series_witness :
  monotone third_clock
  /\ third_clock 16%nat - third_clock 1%nat < 10
  /\ third_clock 24%nat - third_clock 13%nat < 10
  /\ exists rest : list line,
       test_rate_limiter third_clock
       = Returned
           ([Line 1 2 None; Line 2 3 None; Line 3 4 None; Line 4 5 None;
             Line 5 1 None; Line 6 2 (Some 5); Line 7 3 (Some 5);
             Line 8 4 (Some 6); Line 9 5 (Some 6); Line 10 1 (Some 6)] ++ rest).
Proof.
  assert (third_clock 16%nat - third_clock 1%nat < 10) as H2 by reflexivity.
  assert (third_clock 18%nat - third_clock 4%nat < 10) as H3 by reflexivity.
  assert (third_clock 20%nat - third_clock 7%nat < 10) as H4 by reflexivity.
  assert (third_clock 22%nat - third_clock 10%nat < 10) as H5 by reflexivity.
  assert (third_clock 24%nat - third_clock 13%nat < 10) as H1 by reflexivity.
  split; [exact third_clock_monotone|]. split; [exact H2|]. split; [exact H1|].
  destruct (demo_first_series third_clock third_clock_monotone H2 H3 H4 H5 H1)
    as (rest & Hrun & _).
  exists rest. rewrite Hrun. reflexivity.
Defined.
